(** * zvt.contract.recorder: the incremental recording engine

    A shallow embedding of [src/zvt/contract/recorder.py]: the three
    recorders ([TimeSeriesDataRecorder], [FixedCycleDataRecorder],
    [TimestampsDataRecorder]), their window evaluation, the duplicate
    handling of a fetched batch, persistence and real-time completion.

    Python objects become records, [None] becomes [option], exceptions are
    results of an error monad that also threads the recorder's mutable
    surroundings (session, logger, uuid clock, timestamp cache). *)

From Stdlib Require Import ZArith Lia.
From stdpp Require Import base option list strings gmap sorting pretty.

Local Open Scope Z_scope.

(** ** Timestamps *)

(** [pd.Timestamp], timezone-naive: nanoseconds since the epoch. *)
Module Timestamp.
Definition ns_per_second : Z := 1000000000.
Definition ns_per_minute : Z := 60 * ns_per_second.
Definition ns_per_hour : Z := 60 * ns_per_minute.
Definition ns_per_day : Z := 24 * ns_per_hour.

(** [t.hour] and [t.minute] *)
Definition hour (t : Z) : Z := (t / ns_per_hour) mod 24.
Definition minute (t : Z) : Z := (t / ns_per_minute) mod 60.

(** [t.replace(hour=0, minute=0, second=0)]: the date and the
    sub-second fields are kept. *)
Definition replace_hms0 (t : Z) : Z :=
  t - t mod ns_per_day + t mod ns_per_second.

(** [(a - b).days]: a Timedelta is normalised so that [days] is the
    floor of the difference over one day. *)
Definition days (delta : Z) : Z := delta / ns_per_day.

(** Wall-clock constructor used to write concrete instants. *)
Definition make (day h m : Z) : Z :=
  day * ns_per_day + h * ns_per_hour + m * ns_per_minute.

(** Minutes elapsed since midnight. *)
Definition minute_of_day (t : Z) : Z := (t mod ns_per_day) / ns_per_minute.
End Timestamp.

(** ** Entities, domain objects, raw payloads *)

Module Entity.
Record t := mk {
  id : string;
  code : string;
  name : option string;
  timestamp : option Z   (* the list date *)
}.
End Entity.

(** An instance of [data_schema]. [fields] holds every column other than
    the ones the recorder sets itself. *)
Module Domain.
Record t := mk {
  id : string;
  code : string;
  name : option string;
  entity_id : string;
  timestamp : option Z;
  fields : gmap string string
}.

Definition set_id (the_id : string) (d : t) : t :=
  mk the_id (code d) (name d) (entity_id d) (timestamp d) (fields d).
End Domain.

(** What [record] hands back for one item: either a ready
    [data_schema] instance or a raw dict. *)
Inductive Original :=
  | IsDomain (d : Domain.t)
  | IsRaw (raw : gmap string string).

(** [IntervalLevel] *)
Inductive IntervalLevel :=
  | LEVEL_TICK | LEVEL_1MIN | LEVEL_5MIN | LEVEL_15MIN | LEVEL_30MIN
  | LEVEL_1HOUR | LEVEL_4HOUR | LEVEL_1DAY | LEVEL_1WEEK | LEVEL_1MON.

(** The three recorder classes. *)
Inductive RecorderClass :=
  | TimeSeriesDataRecorder
  | FixedCycleDataRecorder
  | TimestampsDataRecorder.

(** The attributes a recorder instance is constructed with. *)
Module Recorder.
Record t := mk {
  cls : RecorderClass;
  batch_size : Z;
  force_update : bool;
  sleeping_time : Z;
  default_size : Z;
  real_time : bool;
  fix_duplicate_way : string;
  start_timestamp : option Z;
  end_timestamp : option Z;
  close_hour : option Z;
  close_minute : option Z;
  level : IntervalLevel;
  one_day_trading_minutes : Z;
  (* ['name' in get_schema_columns(self.data_schema)] *)
  schema_has_name : bool
}.
End Recorder.

(** The 5-tuple returned by [evaluate_start_end_size_timestamps]. *)
Module Window.
Record t := mk {
  start : option Z;
  end_ : option Z;
  trade : option Z;
  size : Z;
  timestamps : option (list Z)
}.
End Window.

(** ** The recorder's surroundings *)

Inductive exn := KeyError | IndexError | ValueError | TypeError.

Inductive exc (A : Type) :=
  | Ok (a : A)
  | Raise (e : exn).
Arguments Ok {A} a.
Arguments Raise {A} e.

Inductive SessionCall :=
  | AddAll (domain_list : list Domain.t)
  | Commit
  | Delete (d : Domain.t)
  | Flush.

Inductive LogRecord :=
  | InfoIgnoreSaved (the_id : string)
  | LogException
  | InfoPersist (entity_id : string) (first_timestamp last_timestamp : option Z)
  | InfoJustDuplicated (n : nat)
  | InfoCloseTime (entity_id : string) (now : Z)
  | InfoRequest (entity_id : string) (size : Z)
  | InfoUpdateRecording (entity_id : string)
  | InfoSleeping (seconds : Z)
  | ExceptionRecording (entity_id : string) (e : exn)
  | WarningNoTimestamp.

(** One call of [self.record]. *)
Record Fetch := mkFetch {
  fetch_entity : string;
  fetch_start : option Z;
  fetch_end : option Z;
  fetch_size : Z;
  fetch_timestamps : option (list Z)
}.

Record World := mkWorld {
  (* rows of [data_schema] reachable through [self.session] *)
  session : list Domain.t;
  session_calls : list SessionCall;
  logger : list LogRecord;
  (* number of [uuid.uuid1()] calls made so far *)
  uuid_clock : nat;
  (* [self.security_timestamps_map] of a TimestampsDataRecorder *)
  security_timestamps_map : gmap string (list Z);
  (* the calls of [self.record] *)
  fetches : list Fetch
}.

Definition set_session (f : list Domain.t → list Domain.t) (w : World) : World :=
  mkWorld (f (session w)) (session_calls w) (logger w) (uuid_clock w)
          (security_timestamps_map w) (fetches w).
Definition add_call (c : SessionCall) (w : World) : World :=
  mkWorld (session w) (session_calls w ++ [c]) (logger w) (uuid_clock w)
          (security_timestamps_map w) (fetches w).
Definition add_log (r : LogRecord) (w : World) : World :=
  mkWorld (session w) (session_calls w) (logger w ++ [r]) (uuid_clock w)
          (security_timestamps_map w) (fetches w).
Definition tick_uuid (w : World) : World :=
  mkWorld (session w) (session_calls w) (logger w) (S (uuid_clock w))
          (security_timestamps_map w) (fetches w).
Definition set_timestamps_map
    (f : gmap string (list Z) → gmap string (list Z)) (w : World) : World :=
  mkWorld (session w) (session_calls w) (logger w) (uuid_clock w)
          (f (security_timestamps_map w)) (fetches w).
Definition add_fetch (c : Fetch) (w : World) : World :=
  mkWorld (session w) (session_calls w) (logger w) (uuid_clock w)
          (security_timestamps_map w) (fetches w ++ [c]).

(** State and exceptions: a raised exception keeps the effects made
    before it. *)
Definition M (A : Type) : Type := World → exc A * World.

Global Instance M_ret : MRet M := λ A a w, (Ok a, w).
Global Instance M_bind : MBind M := λ A B f m w,
  match m w with
  | (Ok a, w') => f a w'
  | (Raise e, w') => (Raise e, w')
  end.

Definition raise {A} (e : exn) : M A := λ w, (Raise e, w).
Definition get_world : M World := λ w, (Ok w, w).
Definition modify_world (f : World → World) : M unit := λ w, (Ok tt, f w).
Definition log (r : LogRecord) : M unit := modify_world (add_log r).

(** [try: m except Exception: h] *)
Definition try_except {A} (m : M A) (h : exn → M A) : M A := λ w,
  match m w with
  | (Ok a, w') => (Ok a, w')
  | (Raise e, w') => h e w'
  end.

(** ** The session *)

(** Order of the [timestamp] column, [None] (NULL) below every instant. *)
Definition ts_le (a b : option Z) : Prop :=
  match a, b with
  | None, _ => True
  | Some _, None => False
  | Some x, Some y => x ≤ y
  end.

Global Instance ts_le_dec a b : Decision (ts_le a b).
Proof. destruct a, b; simpl; apply _. Defined.

(** Modelled from the spec: [get_data] is the DataStore of the spec, not
    part of the recorder module. [DataStore.latest(entityId, schema,
    orderByDesc, limit)] fetches the most recent [limit] persisted
    records of an entity. *)
Definition latest_rows (entity_id : string) (limit : nat) (rows : list Domain.t)
    : list Domain.t :=
  take limit
    (merge_sort (λ a b, ts_le (Domain.timestamp b) (Domain.timestamp a))
       (filter (λ d, Domain.entity_id d = entity_id) rows)).

Definition get_data_latest (entity_id : string) (limit : nat) : M (list Domain.t) :=
  w ← get_world;
  mret (latest_rows entity_id limit (session w)).

(** Modelled from the spec: [get_data] with [filters=[data_schema.id ==
    the_id]] looks up the persisted record with that id ([id] is the
    persisted primary key). *)
Definition rows_by_id (entity_id the_id : string) (rows : list Domain.t)
    : list Domain.t :=
  filter (λ d, Domain.entity_id d = entity_id ∧ Domain.id d = the_id) rows.

Definition get_data_by_id (entity_id the_id : string) : M (list Domain.t) :=
  w ← get_world;
  mret (rows_by_id entity_id the_id (session w)).

(** Modelled from the spec: [session.add_all(domain_list)] followed by
    [session.commit()] is [DataStore.upsertBatch]: each record replaces
    the row with its id, or is added. A commit the database refuses (a
    new object with the id of a saved row) is outside this model: the
    write always goes through. *)
Definition upsert (d : Domain.t) (rows : list Domain.t) : list Domain.t :=
  filter (λ r, Domain.id r ≠ Domain.id d) rows ++ [d].

Definition session_add_all_commit (domain_list : list Domain.t) : M unit :=
  modify_world (add_call (AddAll domain_list));;
  modify_world (set_session (λ rows, foldl (λ rs d, upsert d rs) rows domain_list));;
  modify_world (add_call Commit).

(** Modelled from the spec: [session.delete(r)] and [session.flush()],
    the [DataStore.deleteOne] of the spec. *)
Definition session_delete_flush (r : Domain.t) : M unit :=
  modify_world (add_call (Delete r));;
  modify_world (set_session (filter (λ d, Domain.id d ≠ Domain.id r)));;
  modify_world (add_call Flush).

(** ** External collaborators

    Helpers of [zvt.utils] and the hooks a concrete recorder overrides.
    The recorder module only calls them, so the model is parametric in
    them. *)
Class Externals := {
  (* [to_time_str(value, fmt=TIME_FORMAT_DAY)] *)
  to_time_str : string → string;
  (* [to_pd_timestamp(value)]; it raises on a value it cannot parse *)
  to_pd_timestamp : string → exc Z;
  (* [fill_domain_from_dict(domain_item, original_data, self.get_data_map())] *)
  fill_domain_from_dict : Domain.t → gmap string string → Domain.t;
  (* the token of the n-th [uuid.uuid1()] call *)
  uuid1 : nat → string;
  (* [self.record(entity, start, end, size, timestamps)], n-th call *)
  record : nat → Entity.t → option Z → option Z → Z → option (list Z) → list Original;
  (* [self.init_timestamps(entity)] *)
  init_timestamps : Entity.t → list Z;
  is_in_same_interval : option Z → option Z → IntervalLevel → bool;
  count_mins_before_close_time : Z → option Z → option Z → Z;
  is_same_date : Z → Z → bool;
  date_delta : Z → Z → Z;
  evaluate_size_from_timestamp : Z → Z → IntervalLevel → Z → list Z → Z
}.

Section recorder.
Context {ext : Externals}.
Variable self : Recorder.t.

(** ** get_latest_saved_record *)

(** [TimeSeriesDataRecorder.get_latest_saved_record] *)
Definition get_latest_saved_record_time_series (entity : Entity.t) : M (option Domain.t) :=
  records ← get_data_latest (Entity.id entity) 1;
  match records with
  | r :: _ => mret (Some r)
  | [] => mret None
  end.

(** [FixedCycleDataRecorder.get_latest_saved_record]: the last bar may be
    unfinished, so two records are read. The session holds the rows of
    the recorder's level, which is what [level=self.level] asks for. *)
Definition get_latest_saved_record_fixed_cycle (entity : Entity.t) : M (option Domain.t) :=
  records ← get_data_latest (Entity.id entity) 2;
  match records with
  | [] => mret None
  | r0 :: rest =>
      match rest with
      | [r1] =>
          if is_in_same_interval (Domain.timestamp r0) (Domain.timestamp r1)
                                 (Recorder.level self)
          then session_delete_flush r0;; mret (Some r1)
          else mret (Some r0)
      | _ => mret (Some r0)
      end
  end.

Definition get_latest_saved_record (entity : Entity.t) : M (option Domain.t) :=
  match Recorder.cls self with
  | FixedCycleDataRecorder => get_latest_saved_record_fixed_cycle entity
  | _ => get_latest_saved_record_time_series entity
  end.

(** ** evaluate_start_end_size_timestamps *)

(** [trade_day[trade_index] if len(trade_day) > 0 else None] *)
Definition trade_at (trade_day : list Z) (trade_index : nat) : M (option Z) :=
  match trade_day with
  | [] => mret None
  | _ => match trade_day !! trade_index with
         | Some t => mret (Some t)
         | None => raise IndexError
         end
  end.

(** [entity.timestamp and (entity.timestamp >= now)] *)
Definition not_listed_yet (now : Z) (entity : Entity.t) : bool :=
  match Entity.timestamp entity with
  | Some t => bool_decide (now ≤ t)
  | None => false
  end.

(** [TimeSeriesDataRecorder.evaluate_start_end_size_timestamps] *)
Definition evaluate_time_series (now : Z) (entity : Entity.t) (trade_day : list Z)
    : M Window.t :=
  let trade_index := 0%nat in
  if not_listed_yet now entity then
    trade ← trade_at trade_day trade_index;
    mret (Window.mk (Entity.timestamp entity) None trade 0 None)
  else
    latest_saved_record ← get_latest_saved_record entity;
    let latest_timestamp :=
      match latest_saved_record with
      | Some r => Domain.timestamp r
      | None => Entity.timestamp entity
      end in
    match latest_timestamp with
    | None =>
        trade ← trade_at trade_day trade_index;
        mret (Window.mk (Recorder.start_timestamp self) (Recorder.end_timestamp self)
                        trade (Recorder.default_size self) None)
    | Some latest_timestamp =>
        let latest_timestamp :=
          match Recorder.start_timestamp self with
          | Some s => Z.max latest_timestamp s
          | None => latest_timestamp
          end in
        let size :=
          match Recorder.end_timestamp self with
          | Some e =>
              if bool_decide (e ≤ latest_timestamp) then 0
              else Recorder.default_size self
          | None => Timestamp.days (Timestamp.replace_hms0 now - latest_timestamp)
          end in
        trade ← trade_at trade_day trade_index;
        mret (Window.mk (Some latest_timestamp) (Recorder.end_timestamp self)
                        trade size None)
    end.

(** [trade_day.index(end_date)] *)
Fixpoint list_index (x : Z) (l : list Z) : option nat :=
  match l with
  | [] => None
  | y :: l' => if bool_decide (y = x) then Some 0%nat
               else S <$> list_index x l'
  end.

(** [FixedCycleDataRecorder.evaluate_start_end_size_timestamps];
    [stock_detail] maps an entity id to its [end_date]. *)
Definition evaluate_fixed_cycle (now : Z) (entity : Entity.t) (trade_day : list Z)
    (stock_detail : gmap string Z) : M Window.t :=
  let trade_index := 0%nat in
  if not_listed_yet now entity then
    trade ← trade_at trade_day trade_index;
    mret (Window.mk (Entity.timestamp entity) None trade 0 None)
  else
    latest_saved_record ← get_latest_saved_record entity;
    let latest_saved_timestamp :=
      match latest_saved_record with
      | Some r => Domain.timestamp r
      | None => Entity.timestamp entity
      end in
    match latest_saved_timestamp with
    | None =>
        trade ← trade_at trade_day trade_index;
        mret (Window.mk None None trade (Recorder.default_size self) None)
    | Some latest_saved_timestamp =>
        let trade_index :=
          match trade_day with
          | t0 :: _ =>
              if bool_decide (0 < count_mins_before_close_time now
                                    (Recorder.close_hour self) (Recorder.close_minute self))
                 && is_same_date t0 now
              then 1%nat else trade_index
          | [] => trade_index
          end in
        (* a failed [stock_detail] lookup is caught: [days = -1] *)
        let end_date := stock_detail !! Entity.id entity in
        let days :=
          match end_date with
          | Some d => date_delta now d
          | None => -1
          end in
        trade_index ←
          match end_date with
          | Some d =>
              if bool_decide (0 < days) then
                match list_index d trade_day with
                | Some i => mret i
                | None =>
                    (* [trade_day.index[...]] subscripts a method: always
                       raises, caught with a warning *)
                    log WarningNoTimestamp;; mret trade_index
                end
              else mret trade_index
          | None => mret trade_index
          end;
        let size := evaluate_size_from_timestamp latest_saved_timestamp now
                      (Recorder.level self) (Recorder.one_day_trading_minutes self)
                      (drop trade_index trade_day) in
        trade ← trade_at trade_day trade_index;
        mret (Window.mk (Some latest_saved_timestamp) None trade size None)
    end.

(** [[t for t in timestamps if t >= bound]] *)
Definition timestamps_from (bound : Z) (timestamps : list Z) : list Z :=
  filter (λ t, bound ≤ t) timestamps.

(** [TimestampsDataRecorder.evaluate_start_end_size_timestamps] *)
Definition evaluate_timestamps (now : Z) (entity : Entity.t) (trade_day : list Z)
    : M Window.t :=
  let trade_index := 0%nat in
  w ← get_world;
  timestamps ←
    match security_timestamps_map w !! Entity.id entity with
    | Some (t :: ts) => mret (t :: ts)
    | _ =>
        let timestamps := init_timestamps entity in
        let timestamps :=
          match Recorder.start_timestamp self with
          | Some s => timestamps_from s timestamps
          | None => timestamps
          end in
        let timestamps :=
          match Recorder.end_timestamp self with
          | Some e => filter (λ t, t ≤ e) timestamps
          | None => timestamps
          end in
        modify_world (set_timestamps_map (insert (Entity.id entity) timestamps));;
        mret timestamps
    end;
  match timestamps with
  | [] =>
      trade ← trade_at trade_day trade_index;
      mret (Window.mk None None trade 0 (Some timestamps))
  | _ =>
      (* [timestamps.sort()] sorts the cached list itself *)
      let timestamps := merge_sort Z.le timestamps in
      modify_world (set_timestamps_map (insert (Entity.id entity) timestamps));;
      latest_record ← get_latest_saved_record entity;
      trade ← trade_at trade_day trade_index;
      match latest_record with
      | Some r =>
          match Domain.timestamp r with
          | None => raise TypeError
          | Some latest =>
              let timestamps := timestamps_from latest timestamps in
              match timestamps with
              | [] => mret (Window.mk None None trade 0 None)
              | _ => mret (Window.mk (head timestamps) (last timestamps) trade
                                     (Z.of_nat (length timestamps)) (Some timestamps))
              end
          end
      | None =>
          mret (Window.mk (head timestamps) (last timestamps) trade
                          (Z.of_nat (length timestamps)) (Some timestamps))
      end
  end.

Definition evaluate_start_end_size_timestamps (now : Z) (entity : Entity.t)
    (trade_day : list Z) (stock_detail : gmap string Z) : M Window.t :=
  match Recorder.cls self with
  | TimeSeriesDataRecorder => evaluate_time_series now entity trade_day
  | FixedCycleDataRecorder => evaluate_fixed_cycle now entity trade_day stock_detail
  | TimestampsDataRecorder => evaluate_timestamps now entity trade_day
  end.

(** ** generate_domain *)

(** [get_original_time_field()] *)
Definition original_time_field : string := "timestamp".

(** [original_data[key]] *)
Definition dict_get (original_data : gmap string string) (key : string) : M string :=
  match original_data !! key with
  | Some v => mret v
  | None => raise KeyError
  end.

Definition lift_exc {A} (r : exc A) : M A := λ w, (r, w).

(** ["{}_{}".format(a, b)] *)
Definition format_underscore (a b : string) : string := a +:+ "_" +:+ b.

Definition generate_domain_id (entity : Entity.t) (original_data : gmap string string)
    : M string :=
  v ← dict_get original_data original_time_field;
  mret (format_underscore (Entity.id entity) (to_time_str v)).

(** [self.data_schema(id=the_id, code=entity.code, [name=entity.name,]
    entity_id=entity.id, timestamp=timestamp)] *)
Definition new_domain_item (entity : Entity.t) (the_id : string) (timestamp : option Z)
    : Domain.t :=
  Domain.mk the_id (Entity.code entity)
    (if Recorder.schema_has_name self then Entity.name entity else None)
    (Entity.id entity) timestamp ∅.

(** Returns [(got_new_data, domain_item)]. Under force-update the saved
    record [items[0]] is an object of the session and the overlay changes
    it where it is; here the overlaid record travels in the list and
    reaches the rows of the session with [persist]. *)
Definition generate_domain (entity : Entity.t) (original_data : Original)
    : M (bool * option Domain.t) :=
  match original_data with
  | IsDomain d => mret (true, Some d)
  | IsRaw raw =>
      the_id ← generate_domain_id entity raw;
      items ← get_data_by_id (Entity.id entity) the_id;
      if bool_decide (items ≠ []) && negb (Recorder.force_update self) then
        log (InfoIgnoreSaved the_id);;
        mret (false, None)
      else
        '(got_new_data, domain_item) ←
          match items with
          | [] =>
              timestamp_str ← dict_get raw original_time_field;
              timestamp ← try_except
                             (t ← lift_exc (to_pd_timestamp timestamp_str); mret (Some t))
                             (λ _, log LogException;; mret None);
              mret (true, new_domain_item entity the_id timestamp)
          | item :: _ => mret (false, item)
          end;
        mret (got_new_data, Some (fill_domain_from_dict domain_item raw))
  end.

(** ** persist *)

(** The [first_timestamp, last_timestamp] pair of [persist], from the two
    ends of the list; a comparison with [None] raises and the bare
    [except] keeps the positional order. *)
Definition time_interval (first_item last_item : Domain.t) : option Z * option Z :=
  match Domain.timestamp first_item, Domain.timestamp last_item with
  | Some a, Some b =>
      if bool_decide (b ≤ a) then (Some b, Some a) else (Some a, Some b)
  | a, b => (a, b)
  end.

Definition persist (entity : Entity.t) (domain_list : list Domain.t) : M unit :=
  match domain_list with
  | [] => mret tt
  | d0 :: _ =>
      (* [domain_list[-1]] *)
      let d_last := default d0 (last domain_list) in
      let '(first_timestamp, last_timestamp) := time_interval d0 d_last in
      log (InfoPersist (Entity.id entity) first_timestamp last_timestamp);;
      session_add_all_commit domain_list
  end.

(** [on_finish_entity] does nothing in these classes. *)
Definition on_finish_entity (entity : Entity.t) : M unit := mret tt.

(** ** process_duplicate *)

(** How the [for] loop of [process_duplicate] ends: by its [return], or by
    running through the list. In the mode ["add"] the item with a taken
    id is renamed and appended; when that item is a saved record under
    force-update, the source renames the object of the session, which is
    then in the list twice, where the list here holds two records. *)
Inductive LoopExit :=
  | Returned (entity_finished all_duplicated : bool)
  | Completed (all_duplicated : bool) (domain_list : list Domain.t).

Fixpoint process_duplicate_loop (entity_item : Entity.t) (original_list : list Original)
    (all_duplicated : bool) (domain_list : list Domain.t) : M LoopExit :=
  match original_list with
  | [] => mret (Completed all_duplicated domain_list)
  | original_item :: rest =>
      '(got_new_data, domain_item) ← generate_domain entity_item original_item;
      let all_duplicated := if got_new_data : bool then false else all_duplicated in
      match domain_item with
      | Some domain_item =>
          let duplicate :=
            filter (λ item, Domain.id item = Domain.id domain_item) domain_list in
          match duplicate with
          | _ :: _ =>
              if bool_decide (Recorder.fix_duplicate_way self ≠ "add") then
                mret (Returned true all_duplicated)
              else
                w ← get_world;
                modify_world tick_uuid;;
                let domain_item :=
                  Domain.set_id
                    (format_underscore (Domain.id domain_item) (uuid1 (uuid_clock w)))
                    domain_item in
                process_duplicate_loop entity_item rest all_duplicated
                                       (domain_list ++ [domain_item])
          | [] =>
              process_duplicate_loop entity_item rest all_duplicated
                                     (domain_list ++ [domain_item])
          end
      | None => process_duplicate_loop entity_item rest all_duplicated domain_list
      end
  end.

(** Returns [(entity_finished, all_duplicated)]. *)
Definition process_duplicate (original_list : list Original) (entity_item : Entity.t)
    : M (bool * bool) :=
  match original_list with
  | [] => mret (false, true)
  | _ =>
      r ← process_duplicate_loop entity_item original_list true [];
      match r with
      | Returned entity_finished all_duplicated =>
          mret (entity_finished, all_duplicated)
      | Completed all_duplicated domain_list =>
          match domain_list with
          | [] => log (InfoJustDuplicated (length original_list))
          | _ => persist entity_item domain_list
          end;;
          mret (false, all_duplicated)
      end
  end.

(** ** process_realtime *)

Definition process_realtime (entity_item : Entity.t) (original_list : list Original)
    (all_duplicated : bool) (now : Z) : M bool :=
  entity_finished ←
    (if bool_decide (original_list = []) || all_duplicated then
       if negb (Recorder.real_time self) then mret true
       else
         match Recorder.close_hour self, Recorder.close_minute self with
         | Some close_hour, Some close_minute =>
             if bool_decide (close_hour ≤ Timestamp.hour now) then
               if bool_decide (5 ≤ Timestamp.minute now - close_minute) then
                 log (InfoCloseTime (Entity.id entity_item) now);;
                 mret true
               else mret false
             else mret false
         | _, _ => mret false
         end
     else mret false);
  if entity_finished : bool then
    on_finish_entity entity_item;;
    mret true
  else mret false.

(** ** process_entity and process_loop *)

Definition process_entity (now : Z) (entity_item : Entity.t) (trade_day : list Z)
    (stock_detail : gmap string Z) : M bool :=
  win ← evaluate_start_end_size_timestamps now entity_item trade_day stock_detail;
  let size := Window.size win in
  if bool_decide (size = 0) then
    on_finish_entity entity_item;;
    mret true
  else
    log (InfoRequest (Entity.id entity_item) size);;
    w ← get_world;
    let original_list :=
      record (length (fetches w)) entity_item (Window.start win) (Window.end_ win)
             size (Window.timestamps win) in
    modify_world (add_fetch (mkFetch (Entity.id entity_item) (Window.start win)
                                     (Window.end_ win) size (Window.timestamps win)));;
    '(entity_finished, all_duplicated) ← process_duplicate original_list entity_item;
    if entity_finished : bool then mret true
    else
      entity_finished ← process_realtime entity_item original_list all_duplicated now;
      if entity_finished : bool then mret true
      else
        log (InfoUpdateRecording (Entity.id entity_item));;
        mret false.

(** [Recorder.sleep] *)
Definition sleep : M unit :=
  if bool_decide (0 < Recorder.sleeping_time self)
  then log (InfoSleeping (Recorder.sleeping_time self))
  else mret tt.

(** [process_loop]: [clock k] is what [now_pd_timestamp] answers in the
    k-th cycle. The [while True] runs for at most [fuel] cycles; [None]
    means the entity is still being polled after them. *)
Fixpoint process_loop (fuel : nat) (clock : nat → Z) (entity_item : Entity.t)
    (trade_day : list Z) (stock_detail : gmap string Z) (w : World)
    : option unit * World :=
  match fuel with
  | O => (None, w)
  | S fuel' =>
      match process_entity (clock 0%nat) entity_item trade_day stock_detail w with
      | (Ok true, w') => (Some tt, w')
      | (Ok false, w') =>
          match sleep w' with
          | (_, w'') =>
              process_loop fuel' (λ k, clock (S k)) entity_item trade_day stock_detail w''
          end
      | (Raise e, w') =>
          (Some tt, add_log (ExceptionRecording (Entity.id entity_item) e) w')
      end
  end.

End recorder.

(** ** Vocabulary of the statements *)

(** Rows come back most recent first. *)
Definition more_recent (a b : Domain.t) : Prop :=
  ts_le (Domain.timestamp b) (Domain.timestamp a).

(** Ascending by timestamp. *)
Definition older_first (a b : Domain.t) : Prop :=
  ts_le (Domain.timestamp a) (Domain.timestamp b).

(** What [process_realtime] answers, in one expression. *)
Definition finished_by_code (self : Recorder.t) (original_list : list Original)
    (all_duplicated : bool) (now : Z) : bool :=
  (bool_decide (original_list = []) || all_duplicated)
  && (negb (Recorder.real_time self)
      || match Recorder.close_hour self, Recorder.close_minute self with
         | Some close_hour, Some close_minute =>
             bool_decide (close_hour ≤ Timestamp.hour now)
             && bool_decide (5 ≤ Timestamp.minute now - close_minute)
         | _, _ => false
         end).

(** The session as it was, the uuid clock too: at most the log has
    grown. *)
Definition only_logged (w w' : World) : Prop :=
  session w' = session w ∧ session_calls w' = session_calls w
  ∧ uuid_clock w' = uuid_clock w.

(** The timestamp the generic policy starts from: the one of the latest
    saved record, else the list date of the entity. *)
Definition latest_timestamp_of (rows : list Domain.t) (entity : Entity.t) : option Z :=
  match latest_rows (Entity.id entity) 1 rows with
  | r :: _ => Domain.timestamp r
  | [] => Entity.timestamp entity
  end.

(** [max(latest_timestamp, self.start_timestamp)] when a start is configured. *)
Definition effective_start (self : Recorder.t) (latest_timestamp : Z) : Z :=
  match Recorder.start_timestamp self with
  | Some s => Z.max latest_timestamp s
  | None => latest_timestamp
  end.

(** [now] is at least [margin] minutes past [close_hour:close_minute] of
    its day. *)
Definition past_close_by (margin close_hour close_minute now : Z) : Prop :=
  close_hour * 60 + close_minute + margin ≤ Timestamp.minute_of_day now.

(** A raw payload carries the original time field; a ready domain
    object needs nothing. *)
Definition well_formed (o : Original) : Prop :=
  match o with
  | IsDomain _ => True
  | IsRaw raw => is_Some (raw !! original_time_field)
  end.

Global Instance well_formed_dec o : Decision (well_formed o).
Proof. destruct o; simpl; apply _. Defined.

Section vocabulary.
Context {ext : Externals}.

(** The id [generate_domain_id] derives for a raw payload that has its
    time field. *)
Definition derived_id (entity : Entity.t) (raw : gmap string string) : string :=
  format_underscore (Entity.id entity)
    (to_time_str (default EmptyString (raw !! original_time_field))).

(** The timestamp [generate_domain] gives a new record: [None] when the
    source value does not parse. *)
Definition parsed_timestamp (raw : gmap string string) : option Z :=
  match to_pd_timestamp (default EmptyString (raw !! original_time_field)) with
  | Ok t => Some t
  | Raise _ => None
  end.

(** [generate_domain] answers [got_new_data = True]: the item is a ready
    domain object, or no saved record has its derived id. *)
Definition counted_new (rows : list Domain.t) (entity : Entity.t) (o : Original) : bool :=
  match o with
  | IsDomain _ => true
  | IsRaw raw =>
      bool_decide (rows_by_id (Entity.id entity) (derived_id entity raw) rows = [])
  end.

(** No item of [l] is counted as new. *)
Definition none_new (entity : Entity.t) (rows : list Domain.t) (l : list Original)
    : bool :=
  forallb (λ o, negb (counted_new rows entity o)) l.



End vocabulary.

(** ** run *)

(** The progress-bar slot of [run]: [process_identity] is
    [multiprocessing.current_process()._identity] and [workers] is
    [share_para[1]]; [None] stands for the ZeroDivisionError of [% 0]. *)
Definition worker_id (process_identity : list Z) (workers : Z) : option Z :=
  match process_identity with
  | p :: _ =>
      if bool_decide (workers = 0) then None
      else Some ((p - 1) mod workers + 1)
  | [] => Some 0
  end.

Section runner.
Context {ext : Externals}.
Variable self : Recorder.t.

(** The [for entity_item in self.entities] of [run]: each entity is
    taken through [process_loop], then the bar is updated under the
    shared lock. [pbar] counts the updates; [clock i k] is the time of
    the k-th cycle of the i-th entity. [None]: some loop is still polling
    after [fuel] cycles. *)
Fixpoint run_entities (fuel : nat) (clock : nat → nat → Z) (entities : list Entity.t)
    (trade_day : list Z) (stock_detail : gmap string Z) (w : World) (pbar : nat)
    : option (World * nat) :=
  match entities with
  | [] => Some (w, pbar)
  | entity_item :: rest =>
      match process_loop self fuel (clock 0%nat) entity_item trade_day stock_detail w with
      | (Some _, w') =>
          run_entities fuel (λ i, clock (S i)) rest trade_day stock_detail w' (S pbar)
      | (None, _) => None
      end
  end.

End runner.

(** ** More vocabulary *)

(** The rows of an entity in the session. *)
Definition rows_of (entity_id : string) (rows : list Domain.t) : list Domain.t :=
  filter (λ d, Domain.entity_id d = entity_id) rows.

(** What the latest saved record, or else the entity, gives as the last
    known timestamp. *)
Definition last_known (latest : option Domain.t) (entity : Entity.t) : option Z :=
  match latest with
  | Some r => Domain.timestamp r
  | None => Entity.timestamp entity
  end.

Section more_vocabulary.
Context {ext : Externals}.

(** The index into [trade_day] the fixed-cycle policy starts from: 1
    when today is the first trading day and the close is still ahead. *)
Definition close_trade_index (self : Recorder.t) (now : Z) (trade_day : list Z) : nat :=
  match trade_day with
  | t0 :: _ =>
      if bool_decide (0 < count_mins_before_close_time now
                            (Recorder.close_hour self) (Recorder.close_minute self))
         && is_same_date t0 now
      then 1%nat else 0%nat
  | [] => 0%nat
  end.

(** The timestamps [init_timestamps] gives, cut to the configured range:
    what a TimestampsDataRecorder memoizes. *)
Definition timestamps_in_range (self : Recorder.t) (entity : Entity.t) : list Z :=
  let timestamps := init_timestamps entity in
  let timestamps :=
    match Recorder.start_timestamp self with
    | Some s => timestamps_from s timestamps
    | None => timestamps
    end in
  match Recorder.end_timestamp self with
  | Some e => filter (λ t, t ≤ e) timestamps
  | None => timestamps
  end.

(** The last step of the fixed-cycle policy, from the index reached. *)
Definition fixed_cycle_finish (self : Recorder.t) (now latest : Z) (trade_day : list Z)
    (trade_index : nat) (w : World) : exc Window.t * World :=
  match trade_at trade_day trade_index w with
  | (Ok trade, w') =>
      (Ok (Window.mk (Some latest) None trade
             (evaluate_size_from_timestamp latest now (Recorder.level self)
                (Recorder.one_day_trading_minutes self) (drop trade_index trade_day))
             None), w')
  | (Raise e, w') => (Raise e, w')
  end.

(** The last step of the explicit-timestamp policy, from the sorted
    list and the latest saved record. *)
Definition explicit_window (trade : option Z) (latest_record : option Domain.t)
    (timestamps : list Z) : exc Window.t :=
  match latest_record with
  | Some r =>
      match Domain.timestamp r with
      | None => Raise TypeError
      | Some latest =>
          match timestamps_from latest timestamps with
          | [] => Ok (Window.mk None None trade 0 None)
          | t :: ts =>
              Ok (Window.mk (Some t) (last (t :: ts)) trade
                            (Z.of_nat (length (t :: ts))) (Some (t :: ts)))
          end
      end
  | None =>
      Ok (Window.mk (head timestamps) (last timestamps) trade
                    (Z.of_nat (length timestamps)) (Some timestamps))
  end.

(** The surroundings after saved payloads were skipped one by one, each
    with its log line. *)
Definition skipped_log (entity : Entity.t) (raws : list (gmap string string))
    (w : World) : World :=
  foldl (λ w0 raw, add_log (InfoIgnoreSaved (derived_id entity raw)) w0) w raws.

(** The record [generate_domain] builds for a payload not saved before. *)
Definition built_record (self : Recorder.t) (entity : Entity.t)
    (raw : gmap string string) : Domain.t :=
  fill_domain_from_dict
    (new_domain_item self entity (derived_id entity raw) (parsed_timestamp raw)) raw.

(** The domain item [generate_domain] hands to the loop for [o], read
    off the saved rows: a ready object as it is, a new record for a
    payload not saved before, the saved record overlaid under
    force-update, nothing for a payload that is skipped. *)
Definition produced (self : Recorder.t) (entity : Entity.t) (rows : list Domain.t)
    (o : Original) : option Domain.t :=
  match o with
  | IsDomain d => Some d
  | IsRaw raw =>
      match rows_by_id (Entity.id entity) (derived_id entity raw) rows with
      | [] => Some (built_record self entity raw)
      | item :: _ =>
          if Recorder.force_update self
          then Some (fill_domain_from_dict item raw)
          else None
      end
  end.

(** How far a batch gets when the mode is not ["add"]: the payloads gone
    through, up to and including the first one whose item has an id
    already in the list ([seen] holds the ids in the list), and whether
    there was such a one. *)
Fixpoint processed_until (self : Recorder.t) (entity : Entity.t) (rows : list Domain.t)
    (seen : list string) (l : list Original) : list Original * bool :=
  match l with
  | [] => ([], false)
  | o :: rest =>
      match produced self entity rows o with
      | Some d =>
          if bool_decide (Domain.id d ∈ seen) then ([o], true)
          else
            let '(p, collided) :=
              processed_until self entity rows (seen ++ [Domain.id d]) rest in
            (o :: p, collided)
      | None =>
          let '(p, collided) := processed_until self entity rows seen rest in
          (o :: p, collided)
      end
  end.

(** What [process_duplicate] goes through and whether it returns early:
    in the mode ["add"] the whole batch and no early return. *)
Definition batch_outcome (self : Recorder.t) (entity : Entity.t) (rows : list Domain.t)
    (batch : list Original) : list Original * bool :=
  if bool_decide (Recorder.fix_duplicate_way self = "add") then (batch, false)
  else processed_until self entity rows [] batch.

End more_vocabulary.

(** ** A concrete recorder

    Simple stand-ins for the external helpers, used to run the model on
    concrete inputs. *)
Module Demo.
Definition digit (c : Ascii.ascii) : option Z :=
  let n := Z.of_nat (Ascii.nat_of_ascii c) in
  if bool_decide (48 ≤ n ≤ 57) then Some (n - 48) else None.

Fixpoint parse (s : string) (acc : Z) : exc Z :=
  match s with
  | EmptyString => Ok acc
  | String c s' =>
      match digit c with
      | Some d => parse s' (10 * acc + d)
      | None => Raise ValueError
      end
  end.

(** Source timestamps are day numbers in decimal. *)
Definition parse_day (s : string) : exc Z :=
  match s with
  | EmptyString => Raise ValueError
  | _ => match parse s 0 with
         | Ok d => Ok (d * Timestamp.ns_per_day)
         | Raise e => Raise e
         end
  end.

Definition overlay (d : Domain.t) (raw : gmap string string) : Domain.t :=
  Domain.mk (Domain.id d) (Domain.code d) (Domain.name d) (Domain.entity_id d)
            (Domain.timestamp d) (raw ∪ Domain.fields d).

Definition same_day (a b : Z) : bool :=
  bool_decide (a / Timestamp.ns_per_day = b / Timestamp.ns_per_day).

Definition mins_before_close (now : Z) (close_hour close_minute : option Z) : Z :=
  default 0 close_hour * 60 + default 0 close_minute - Timestamp.minute_of_day now.

Global Instance ext : Externals := {|
  to_time_str := id;
  to_pd_timestamp := parse_day;
  fill_domain_from_dict := overlay;
  uuid1 := pretty;
  record := λ _ _ _ _ _ _, [];
  init_timestamps := λ _, [];
  is_in_same_interval := λ a b _,
    match a, b with
    | Some x, Some y => same_day x y
    | _, _ => false
    end;
  count_mins_before_close_time := mins_before_close;
  is_same_date := same_day;
  date_delta := λ a b, (a - b) / Timestamp.ns_per_day;
  evaluate_size_from_timestamp := λ start_ts end_ts _ _ _,
    (end_ts - start_ts) / Timestamp.ns_per_day + 1
|}.

Definition recorder (cls : RecorderClass) (force_update real_time : bool)
    (fix_duplicate_way : string) (end_timestamp close_hour close_minute : option Z)
    : Recorder.t :=
  Recorder.mk cls 10 force_update 5 2000 real_time fix_duplicate_way None
              end_timestamp close_hour close_minute LEVEL_1DAY (24 * 60) true.

(** A catch-up recorder of the generic class, with the defaults of
    the constructor. *)
Definition catch_up : Recorder.t :=
  recorder TimeSeriesDataRecorder false false "add" None (Some 0) (Some 0).

Definition stock : Entity.t := Entity.mk "stock_sz_000001" "000001" (Some "PAB") (Some 0).

Definition world (rows : list Domain.t) : World := mkWorld rows [] [] 0 ∅ [].

Definition payload (day close : string) : gmap string string :=
  {[ "timestamp" := day; "close" := close ]}.

Definition row (the_id : string) (ts : Z) : Domain.t :=
  Domain.mk the_id "000001" (Some "PAB") "stock_sz_000001" (Some ts) ∅.
End Demo.

(** A second set of stand-ins: a source that has records and event
    timestamps to give. *)
Module Feed.
Definition ext : Externals := {|
  to_time_str := id;
  to_pd_timestamp := Demo.parse_day;
  fill_domain_from_dict := Demo.overlay;
  uuid1 := pretty;
  record := λ n _ _ _ _ _,
    match n with
    | O => [IsRaw (Demo.payload "3" "1.0"); IsRaw (Demo.payload "4" "2.0")]
    | _ => []
    end;
  init_timestamps := λ _, [30; 10; 20; 50];
  is_in_same_interval := λ _ _ _, false;
  count_mins_before_close_time := Demo.mins_before_close;
  is_same_date := Demo.same_day;
  date_delta := λ a b, (a - b) / Timestamp.ns_per_day;
  evaluate_size_from_timestamp := λ start_ts end_ts _ _ trade_day,
    Z.of_nat (length trade_day)
|}.
End Feed.

(** * Properties *)

(** ** The monad, step by step *)

Ltac run :=
  unfold mbind, M_bind, mret, M_ret, get_world, modify_world, log, raise,
         lift_exc, try_except, on_finish_entity in *;
  simpl in *.

Global Instance ts_le_total : Total ts_le.
Proof. intros [x|] [y|]; simpl; auto; lia. Qed.

Global Instance ts_le_trans : Transitive ts_le.
Proof. intros [x|] [y|] [z|]; simpl; auto; try lia; tauto. Qed.

Global Instance more_recent_total : Total more_recent.
Proof. intros a b. unfold more_recent. destruct (total ts_le (Domain.timestamp a) (Domain.timestamp b)); auto. Qed.

Global Instance more_recent_trans : Transitive more_recent.
Proof. intros a b c Hab Hbc. unfold more_recent in *. by etrans. Qed.

Lemma latest_rows_sorted entity_id limit rows :
  Sorted more_recent (latest_rows entity_id limit rows).
Proof.
  unfold latest_rows.
  set (l := merge_sort _ _).
  assert (Hs : Sorted more_recent l) by (apply (Sorted_merge_sort more_recent)).
  clearbody l. revert limit.
  induction Hs as [|x l Hl IH Hhd]; intros [|n]; simpl; try constructor.
  - apply IH.
  - destruct Hhd; destruct n; simpl; constructor; done.
Qed.

(** With [trade_index = 0] the lookup in [trade_day] never raises. *)
Lemma trade_at_0 trade_day w :
  trade_at trade_day 0 w = (Ok (head trade_day), w).
Proof. destruct trade_day; reflexivity. Qed.

Section window_facts.
Context {ext : Externals}.
Variable self : Recorder.t.

Lemma get_latest_saved_record_time_series_eq entity w :
  get_latest_saved_record_time_series entity w
  = (Ok (head (latest_rows (Entity.id entity) 1 (session w))), w).
Proof.
  unfold get_latest_saved_record_time_series, get_data_latest. run.
  by destruct (latest_rows _ _ _).
Qed.

Lemma evaluate_not_listed_yet now entity trade_day stock_detail w :
  Recorder.cls self ≠ TimestampsDataRecorder →
  not_listed_yet now entity = true →
  evaluate_start_end_size_timestamps self now entity trade_day stock_detail w
  = (Ok (Window.mk (Entity.timestamp entity) None (head trade_day) 0 None), w).
Proof.
  intros Hcls Hnot. unfold evaluate_start_end_size_timestamps.
  destruct (Recorder.cls self); try done.
  - unfold evaluate_time_series. rewrite Hnot. run. by rewrite trade_at_0.
  - unfold evaluate_fixed_cycle. rewrite Hnot. run. by rewrite trade_at_0.
Qed.

End window_facts.

(** C6. An entity whose list date is [now] or later gets [size = 0] from
    the generic and from the fixed-cycle policy, whatever else is
    configured; the cycle ends there, and no fetch is made (the
    surroundings, fetch calls included, are untouched). *)
Theorem not_listed_entity_size_zero `{Externals} (self : Recorder.t)
    (now t : Z) (entity : Entity.t) (trade_day : list Z)
    (stock_detail : gmap string Z) (w : World) :
  Recorder.cls self ≠ TimestampsDataRecorder →
  Entity.timestamp entity = Some t →
  now ≤ t →
  ∃ win,
    evaluate_start_end_size_timestamps self now entity trade_day stock_detail w
      = (Ok win, w)
    ∧ Window.size win = 0
    ∧ process_entity self now entity trade_day stock_detail w = (Ok true, w).
Proof.
  intros Hcls Ht Hle.
  assert (Hnot : not_listed_yet now entity = true).
  { unfold not_listed_yet. rewrite Ht. by apply bool_decide_eq_true. }
  eexists. split; [by apply evaluate_not_listed_yet|]. split; [done|].
  unfold process_entity. run.
  by rewrite evaluate_not_listed_yet.
Qed.

Lemma not_listed_entity_size_zero_witness :
  ∃ win,
    evaluate_start_end_size_timestamps
      (Demo.recorder FixedCycleDataRecorder true false "ignore" None (Some 15) (Some 0))
      (Timestamp.make 10 9 30)
      (Entity.mk "stock_sz_000001" "000001" None (Some (Timestamp.make 12 0 0)))
      [Timestamp.make 10 0 0] ∅ (Demo.world [])
      = (Ok win, Demo.world [])
    ∧ Window.size win = 0
    ∧ process_entity
        (Demo.recorder FixedCycleDataRecorder true false "ignore" None (Some 15) (Some 0))
        (Timestamp.make 10 9 30)
        (Entity.mk "stock_sz_000001" "000001" None (Some (Timestamp.make 12 0 0)))
        [Timestamp.make 10 0 0] ∅ (Demo.world [])
      = (Ok true, Demo.world []).
Proof.
  apply (not_listed_entity_size_zero _ _ (Timestamp.make 12 0 0)).
  - simpl. discriminate.
  - reflexivity.
  - vm_compute. discriminate.
Defined.

(** ** The generic window *)

Section generic_window.
Context {ext : Externals}.
Variable self : Recorder.t.

Lemma evaluate_time_series_known_start now entity trade_day stock_detail w lt :
  Recorder.cls self = TimeSeriesDataRecorder →
  not_listed_yet now entity = false →
  latest_timestamp_of (session w) entity = Some lt →
  evaluate_start_end_size_timestamps self now entity trade_day stock_detail w
  = (Ok (Window.mk (Some (effective_start self lt)) (Recorder.end_timestamp self)
           (head trade_day)
           (match Recorder.end_timestamp self with
            | Some e => if bool_decide (e ≤ effective_start self lt) then 0
                        else Recorder.default_size self
            | None => Timestamp.days (Timestamp.replace_hms0 now - effective_start self lt)
            end)
           None), w).
Proof.
  intros Hcls Hnot Hlt.
  unfold evaluate_start_end_size_timestamps, evaluate_time_series.
  rewrite Hcls, Hnot.
  unfold latest_timestamp_of in Hlt.
  unfold get_latest_saved_record. rewrite Hcls. run.
  rewrite get_latest_saved_record_time_series_eq.
  destruct (latest_rows _ _ _) as [|r rs]; simpl in *; rewrite Hlt;
    rewrite trade_at_0; reflexivity.
Qed.

End generic_window.

(** C4, as the code has it. For an entity with a known effective start
    under the generic policy: with an end timestamp configured and
    reached by the effective start the size is 0; with no end timestamp
    the size is the whole-day count (floor) from the effective start to
    midnight of [now]'s date. That count has no lower bound: it is
    negative exactly when the effective start lies after that midnight. *)
Theorem generic_window_size `{Externals} (self : Recorder.t) (now lt : Z)
    (entity : Entity.t) (trade_day : list Z) (stock_detail : gmap string Z)
    (w : World) :
  Recorder.cls self = TimeSeriesDataRecorder →
  not_listed_yet now entity = false →
  latest_timestamp_of (session w) entity = Some lt →
  ∃ win,
    evaluate_start_end_size_timestamps self now entity trade_day stock_detail w
      = (Ok win, w)
    ∧ Window.start win = Some (effective_start self lt)
    ∧ (∀ e, Recorder.end_timestamp self = Some e → e ≤ effective_start self lt →
         Window.size win = 0)
    ∧ (Recorder.end_timestamp self = None →
         Window.size win
           = Timestamp.days (Timestamp.replace_hms0 now - effective_start self lt)
         ∧ (Window.size win < 0 ↔ Timestamp.replace_hms0 now < effective_start self lt)).
Proof.
  intros Hcls Hnot Hlt.
  eexists. split; [by apply evaluate_time_series_known_start|]. simpl.
  split; [done|]. split.
  - intros e -> Hle. by rewrite bool_decide_eq_true_2.
  - intros ->. split; [done|].
    unfold Timestamp.days.
    assert (Hd : 0 < Timestamp.ns_per_day) by (vm_compute; done).
    split; intros Hlt0.
    + destruct (Z.lt_ge_cases (Timestamp.replace_hms0 now) (effective_start self lt))
        as [|Hge]; [done|].
      assert (0 ≤ (Timestamp.replace_hms0 now - effective_start self lt)
                  / Timestamp.ns_per_day) by (apply Z.div_pos; lia).
      lia.
    + apply Z.div_lt_upper_bound; lia.
Qed.

Lemma generic_window_size_witness :
  ∃ win,
    evaluate_start_end_size_timestamps
      Demo.catch_up
      (Timestamp.make 103 10 0) Demo.stock [] ∅
      (Demo.world [Demo.row "stock_sz_000001_100" (Timestamp.make 100 0 0)])
      = (Ok win, Demo.world [Demo.row "stock_sz_000001_100" (Timestamp.make 100 0 0)])
    ∧ Window.start win = Some (Timestamp.make 100 0 0)
    ∧ (∀ e, Recorder.end_timestamp Demo.catch_up = Some e →
         e ≤ Timestamp.make 100 0 0 → Window.size win = 0)
    ∧ (Recorder.end_timestamp Demo.catch_up = None →
         Window.size win
           = Timestamp.days (Timestamp.replace_hms0 (Timestamp.make 103 10 0)
                             - Timestamp.make 100 0 0)
         ∧ (Window.size win < 0
            ↔ Timestamp.replace_hms0 (Timestamp.make 103 10 0) < Timestamp.make 100 0 0)).
Proof.
  apply (generic_window_size
           Demo.catch_up
           (Timestamp.make 103 10 0) (Timestamp.make 100 0 0) Demo.stock [] ∅
           (Demo.world [Demo.row "stock_sz_000001_100" (Timestamp.make 100 0 0)])).
  - reflexivity.
  - vm_compute. reflexivity.
  - vm_compute. reflexivity.
Defined.

(** C4, the claim as written fails: with no end timestamp, a record
    saved at 09:30 of the day on which [now] is 10:00 gives the size -1,
    which is not bounded below by 0. *)
Lemma generic_window_size_negative :
  ∃ win w',
    evaluate_start_end_size_timestamps
      Demo.catch_up
      (Timestamp.make 100 10 0) Demo.stock [] ∅
      (Demo.world [Demo.row "stock_sz_000001_100" (Timestamp.make 100 9 30)])
      = (Ok win, w')
    ∧ Recorder.end_timestamp
        Demo.catch_up
      = None
    ∧ Window.start win = Some (Timestamp.make 100 9 30)
    ∧ Window.size win = -1
    ∧ ¬ (0 ≤ Window.size win).
Proof.
  do 2 eexists. split; [vm_compute; reflexivity|].
  repeat split; simpl; lia.
Qed.

(** ** Real-time completion *)

Lemma minute_of_day_hour_minute t :
  Timestamp.minute_of_day t = 60 * Timestamp.hour t + Timestamp.minute t.
Proof.
  unfold Timestamp.minute_of_day, Timestamp.hour, Timestamp.minute.
  change Timestamp.ns_per_day with (Timestamp.ns_per_minute * 1440).
  change Timestamp.ns_per_hour with (Timestamp.ns_per_minute * 60).
  assert (Hm : 0 < Timestamp.ns_per_minute) by (vm_compute; done).
  rewrite Z.rem_mul_r by lia.
  rewrite <- Z.div_div by lia.
  set (q := t / Timestamp.ns_per_minute).
  rewrite Z.mul_comm, Z.div_add by lia.
  rewrite (Z.div_small (t mod _)) by (apply Z.mod_pos_bound; lia).
  change 1440 with (60 * 24).
  rewrite Z.rem_mul_r by lia. lia.
Qed.

Section completion.
Context {ext : Externals}.
Variable self : Recorder.t.

Lemma process_realtime_result entity_item original_list all_duplicated now w :
  (process_realtime self entity_item original_list all_duplicated now w).1
  = Ok (finished_by_code self original_list all_duplicated now).
Proof.
  unfold process_realtime, finished_by_code. run.
  destruct (bool_decide (original_list = []) || all_duplicated); simpl; [|done].
  destruct (Recorder.real_time self); simpl; [|done].
  destruct (Recorder.close_hour self), (Recorder.close_minute self); simpl; try done.
  repeat case_bool_decide; simpl; done.
Qed.

(** No real-time tracking: nothing new means finished. *)
Lemma process_realtime_catch_up entity_item original_list all_duplicated now w :
  Recorder.real_time self = false →
  original_list = [] ∨ all_duplicated = true →
  process_realtime self entity_item original_list all_duplicated now w = (Ok true, w).
Proof.
  intros Hrt Hno. unfold process_realtime. run. rewrite Hrt. simpl.
  destruct Hno as [->| ->]; simpl; [done|].
  by rewrite orb_true_r.
Qed.

(** Real-time tracking: an entity the code finishes is at least five
    minutes past the close. *)
Lemma process_realtime_finished_past_close entity_item original_list all_duplicated
    now w close_hour close_minute :
  Recorder.real_time self = true →
  Recorder.close_hour self = Some close_hour →
  Recorder.close_minute self = Some close_minute →
  0 ≤ close_minute →
  (process_realtime self entity_item original_list all_duplicated now w).1 = Ok true →
  past_close_by 5 close_hour close_minute now.
Proof.
  intros Hrt Hh Hm Hcm. rewrite process_realtime_result. unfold finished_by_code.
  rewrite Hrt, Hh, Hm. simpl. intros [= Hfin].
  apply andb_prop in Hfin as [_ Hfin]. apply andb_prop in Hfin as [H1 H2].
  apply bool_decide_eq_true in H1. apply bool_decide_eq_true in H2.
  unfold past_close_by. rewrite minute_of_day_hour_minute.
  assert (0 ≤ Timestamp.minute now < 60) by (apply Z.mod_pos_bound; lia).
  lia.
Qed.

(** Within the closing hour the code and the five-minute margin agree. *)
Lemma process_realtime_closing_hour entity_item original_list all_duplicated
    now w close_hour close_minute :
  Recorder.real_time self = true →
  Recorder.close_hour self = Some close_hour →
  Recorder.close_minute self = Some close_minute →
  original_list = [] ∨ all_duplicated = true →
  Timestamp.hour now = close_hour →
  (process_realtime self entity_item original_list all_duplicated now w).1 = Ok true
  ↔ past_close_by 5 close_hour close_minute now.
Proof.
  intros Hrt Hh Hm Hno Hhour. rewrite process_realtime_result. unfold finished_by_code.
  rewrite Hrt, Hh, Hm. simpl.
  assert (Hnone : bool_decide (original_list = []) || all_duplicated = true).
  { destruct Hno as [->| ->]; [done | by rewrite orb_true_r]. }
  rewrite Hnone. simpl.
  unfold past_close_by. rewrite minute_of_day_hour_minute, Hhour.
  rewrite bool_decide_eq_true_2 by lia. simpl.
  split.
  - intros [= H5]. apply bool_decide_eq_true in H5. lia.
  - intros H5. f_equal. apply bool_decide_eq_true. lia.
Qed.

End completion.

(** C1, where the code departs from the claim. Real-time tracking is on
    and the fetch came back empty. With the close at 14:58 and [now] at
    15:04, six minutes past the close, the entity is not finished; with
    the close at 15:00 and [now] at 16:02, an hour past it, neither: the
    minute fields are compared without regard to the hour. *)
Theorem process_realtime_misses_close :
  let w := Demo.world [] in
  (past_close_by 5 14 58 (Timestamp.make 100 15 4)
   ∧ process_realtime
       (Demo.recorder TimeSeriesDataRecorder false true "add" None (Some 14) (Some 58))
       Demo.stock [] true (Timestamp.make 100 15 4) w
     = (Ok false, w))
  ∧ (past_close_by 5 15 0 (Timestamp.make 100 16 2)
     ∧ process_realtime
         (Demo.recorder TimeSeriesDataRecorder false true "add" None (Some 15) (Some 0))
         Demo.stock [] true (Timestamp.make 100 16 2) w
       = (Ok false, w)).
Proof.
  simpl. repeat split; try (vm_compute; reflexivity); vm_compute; discriminate.
Qed.

(** ** The polling loop *)

Section polling.
Context {ext : Externals}.
Variable self : Recorder.t.

(** A cycle that answers "finished" ends the loop. *)
Lemma process_loop_finished fuel clock entity_item trade_day stock_detail w w' :
  process_entity self (clock 0%nat) entity_item trade_day stock_detail w = (Ok true, w') →
  process_loop self (S fuel) clock entity_item trade_day stock_detail w = (Some tt, w').
Proof. intros Hcycle. simpl. by rewrite Hcycle. Qed.

(** A cycle that answers "not finished" is followed, after the sleep, by
    another one at the next reading of the clock. *)
Lemma process_loop_polls fuel clock entity_item trade_day stock_detail w w' :
  process_entity self (clock 0%nat) entity_item trade_day stock_detail w = (Ok false, w') →
  process_loop self (S fuel) clock entity_item trade_day stock_detail w
  = process_loop self fuel (λ k, clock (S k)) entity_item trade_day stock_detail
      (sleep self w').2.
Proof. intros Hcycle. simpl. rewrite Hcycle. by destruct (sleep self w'). Qed.

(** An exception is logged and ends the loop. *)
Lemma process_loop_failed fuel clock entity_item trade_day stock_detail w w' e :
  process_entity self (clock 0%nat) entity_item trade_day stock_detail w = (Raise e, w') →
  process_loop self (S fuel) clock entity_item trade_day stock_detail w
  = (Some tt, add_log (ExceptionRecording (Entity.id entity_item) e) w').
Proof. intros Hcycle. simpl. by rewrite Hcycle. Qed.

End polling.

(** ** The fixed-cycle anchor *)

(** C5. Under the fixed-cycle policy, when the two most recently saved
    records ([r0] the more recent, [r1] the older) are in the same
    interval of the configured level, exactly one delete call is issued,
    for [r0], which leaves the session, and [r1] is returned as the
    anchor; when they are in different intervals nothing is deleted and
    [r0] is returned. *)
Theorem fixed_cycle_latest_saved_record `{Externals} (self : Recorder.t)
    (entity : Entity.t) (w : World) (r0 r1 : Domain.t) :
  Recorder.cls self = FixedCycleDataRecorder →
  latest_rows (Entity.id entity) 2 (session w) = [r0; r1] →
  more_recent r0 r1
  ∧ (is_in_same_interval (Domain.timestamp r0) (Domain.timestamp r1)
                         (Recorder.level self) = true →
     ∃ w',
       get_latest_saved_record self entity w = (Ok (Some r1), w')
       ∧ session_calls w' = session_calls w ++ [Delete r0; Flush]
       ∧ session w' = filter (λ d, Domain.id d ≠ Domain.id r0) (session w))
  ∧ (is_in_same_interval (Domain.timestamp r0) (Domain.timestamp r1)
                         (Recorder.level self) = false →
     get_latest_saved_record self entity w = (Ok (Some r0), w)).
Proof.
  intros Hcls Hrows. split; [|split].
  - pose proof (latest_rows_sorted (Entity.id entity) 2 (session w)) as Hs.
    rewrite Hrows in Hs. inversion Hs as [|? ? _ Hhd]; subst.
    by inversion Hhd.
  - intros Hsame. unfold get_latest_saved_record. rewrite Hcls.
    unfold get_latest_saved_record_fixed_cycle, get_data_latest. run.
    rewrite Hrows, Hsame. unfold session_delete_flush. run.
    eexists. split; [reflexivity|]. simpl.
    by rewrite <- app_assoc.
  - intros Hdiff. unfold get_latest_saved_record. rewrite Hcls.
    unfold get_latest_saved_record_fixed_cycle, get_data_latest. run.
    by rewrite Hrows, Hdiff.
Qed.

Lemma fixed_cycle_latest_saved_record_witness :
  let self := Demo.recorder FixedCycleDataRecorder true false "ignore" None (Some 15) (Some 0) in
  let r0 := Demo.row "stock_sz_000001_b" (Timestamp.make 100 15 0) in
  let r1 := Demo.row "stock_sz_000001_a" (Timestamp.make 100 14 0) in
  let w := Demo.world [Demo.row "stock_sz_000001_z" (Timestamp.make 99 15 0); r1; r0] in
  more_recent r0 r1
  ∧ (is_in_same_interval (Domain.timestamp r0) (Domain.timestamp r1)
                         (Recorder.level self) = true →
     ∃ w',
       get_latest_saved_record self Demo.stock w = (Ok (Some r1), w')
       ∧ session_calls w' = session_calls w ++ [Delete r0; Flush]
       ∧ session w' = filter (λ d, Domain.id d ≠ Domain.id r0) (session w))
  ∧ (is_in_same_interval (Domain.timestamp r0) (Domain.timestamp r1)
                         (Recorder.level self) = false →
     get_latest_saved_record self Demo.stock w = (Ok (Some r0), w)).
Proof.
  intros self r0 r1 w.
  apply (fixed_cycle_latest_saved_record self Demo.stock w r0 r1).
  - reflexivity.
  - vm_compute. reflexivity.
Defined.

(** ** The explicit-timestamp window *)

(** C7. Under the explicit-timestamp policy, with a non-empty cached
    list and a latest saved record, a cycle keeps of the (sorted) cached
    list the timestamps at or after the record's timestamp: [size] is
    their count and they are carried as the explicit timestamps, from the
    first to the last; when none remains the size is 0. The remaining
    timestamps are exactly those of the cached list that pass the test,
    and the cache keeps the whole list for the next cycle. *)
Theorem timestamps_window `{Externals} (self : Recorder.t) (now latest : Z)
    (entity : Entity.t) (trade_day : list Z) (stock_detail : gmap string Z)
    (w : World) (cached : list Z) (r : Domain.t) :
  Recorder.cls self = TimestampsDataRecorder →
  security_timestamps_map w !! Entity.id entity = Some cached →
  cached ≠ [] →
  head (latest_rows (Entity.id entity) 1 (session w)) = Some r →
  Domain.timestamp r = Some latest →
  let remaining := timestamps_from latest (merge_sort Z.le cached) in
  ∃ win w',
    evaluate_start_end_size_timestamps self now entity trade_day stock_detail w
      = (Ok win, w')
    ∧ Window.size win = Z.of_nat (length remaining)
    ∧ (remaining ≠ [] →
         Window.timestamps win = Some remaining
         ∧ Window.start win = head remaining
         ∧ Window.end_ win = last remaining)
    ∧ (remaining = [] → Window.size win = 0)
    ∧ remaining ≡ₚ filter (λ t, latest ≤ t) cached
    ∧ security_timestamps_map w' !! Entity.id entity = Some (merge_sort Z.le cached).
Proof.
  intros Hcls Hcache Hne Hrec Hts remaining.
  assert (Hperm : remaining ≡ₚ filter (λ t, latest ≤ t) cached).
  { unfold remaining, timestamps_from. by rewrite merge_sort_Permutation. }
  unfold evaluate_start_end_size_timestamps. rewrite Hcls.
  unfold evaluate_timestamps. run. rewrite Hcache.
  destruct cached as [|c cs]; [done|].
  assert (Hsorted : merge_sort Z.le (c :: cs) ≠ []).
  { intros Hnil. pose proof (merge_sort_Permutation Z.le (c :: cs)) as Hp.
    rewrite Hnil in Hp. by apply Permutation_nil_cons in Hp. }
  unfold get_latest_saved_record. rewrite Hcls.
  rewrite get_latest_saved_record_time_series_eq. simpl.
  rewrite Hrec, trade_at_0, Hts.
  fold remaining.
  destruct remaining as [|t ts] eqn:Hrem.
  - do 2 eexists. split; [reflexivity|]. simpl.
    repeat split; try done. apply lookup_insert_eq.
  - do 2 eexists. split; [reflexivity|]. simpl.
    repeat split; try done. apply lookup_insert_eq.
Qed.

Lemma timestamps_window_witness :
  let self := Demo.recorder TimestampsDataRecorder false false "add" None (Some 0) (Some 0) in
  let r := Demo.row "stock_sz_000001_20" 20 in
  let w := mkWorld [r] [] [] 0 {[ "stock_sz_000001" := [30; 10; 20] ]} [] in
  let remaining := timestamps_from 20 (merge_sort Z.le [30; 10; 20]) in
  ∃ win w',
    evaluate_start_end_size_timestamps self 40 Demo.stock [] ∅ w = (Ok win, w')
    ∧ Window.size win = Z.of_nat (length remaining)
    ∧ (remaining ≠ [] →
         Window.timestamps win = Some remaining
         ∧ Window.start win = head remaining
         ∧ Window.end_ win = last remaining)
    ∧ (remaining = [] → Window.size win = 0)
    ∧ remaining ≡ₚ filter (λ t, 20 ≤ t) [30; 10; 20]
    ∧ security_timestamps_map w' !! Entity.id Demo.stock
      = Some (merge_sort Z.le [30; 10; 20]).
Proof.
  intros self r w.
  apply (timestamps_window self 40 20 Demo.stock [] ∅ w [30; 10; 20] r).
  - reflexivity.
  - vm_compute. reflexivity.
  - discriminate.
  - vm_compute. reflexivity.
  - reflexivity.
Defined.

(** ** persist *)

Lemma strongly_sorted_last {A} (R : relation A) (l : list A) (x y : A) :
  StronglySorted R l → x ∈ l → last l = Some y → x = y ∨ R x y.
Proof.
  intros Hs Hx Hlast. apply last_Some in Hlast as [l' ->].
  apply elem_of_app in Hx as [Hx|Hx].
  - right. apply (StronglySorted_app_1_elem_of R l' [y] x y); [done..|].
    by apply list_elem_of_singleton.
  - left. by apply list_elem_of_singleton in Hx.
Qed.

Lemma strongly_sorted_head {A} (R : relation A) (l : list A) (x y : A) :
  StronglySorted R (x :: l) → y ∈ x :: l → x = y ∨ R x y.
Proof.
  intros Hs Hy. apply elem_of_cons in Hy as [->|Hy]; [by left|right].
  apply StronglySorted_inv in Hs as [_ Hall].
  rewrite Forall_forall in Hall. by apply Hall.
Qed.

Global Instance older_first_trans : Transitive older_first.
Proof. intros a b c Hab Hbc. unfold older_first in *. by etrans. Qed.

(** C8, as the code has it. For a non-empty batch whose first and last
    records carry timestamps [a] and [b], [persist] reports the smaller
    and the larger of these two, and writes the batch. They are the
    minimum and maximum over the whole batch when the batch is ordered by
    timestamp, ascending or descending. *)
Theorem persist_time_interval (entity : Entity.t) (d0 : Domain.t)
    (rest : list Domain.t) (w : World) (a b : Z) :
  let domain_list := d0 :: rest in
  Domain.timestamp d0 = Some a →
  Domain.timestamp <$> last domain_list = Some (Some b) →
  ∃ w',
    persist entity domain_list w = (Ok tt, w')
    ∧ logger w' = logger w ++ [InfoPersist (Entity.id entity)
                                  (Some (Z.min a b)) (Some (Z.max a b))]
    ∧ session_calls w' = session_calls w ++ [AddAll domain_list; Commit]
    ∧ (Sorted older_first domain_list ∨ Sorted more_recent domain_list →
       ∀ d t, d ∈ domain_list → Domain.timestamp d = Some t →
              Z.min a b ≤ t ≤ Z.max a b).
Proof.
  intros domain_list Ha Hb.
  destruct (last domain_list) as [dl|] eqn:Hlast; [|done].
  simpl in Hb. injection Hb as Hb.
  unfold persist. fold domain_list. rewrite Hlast. simpl.
  unfold time_interval. rewrite Ha, Hb.
  assert (Hint : (if bool_decide (b ≤ a) then (Some b, Some a) else (Some a, Some b))
                 = (Some (Z.min a b), Some (Z.max a b))).
  { case_bool_decide; f_equal; f_equal; lia. }
  rewrite Hint. unfold session_add_all_commit. run.
  eexists. split; [reflexivity|]. simpl.
  split; [done|]. split; [by rewrite <- app_assoc|].
  intros Hsorted d t Hd Ht.
  destruct Hsorted as [Hs|Hs]; apply Sorted_StronglySorted in Hs; try apply _.
  - destruct (strongly_sorted_head _ _ _ _ Hs Hd) as [<-|H1];
      destruct (strongly_sorted_last _ _ _ _ Hs Hd Hlast) as [->|H2];
      unfold older_first in *; rewrite ?Ha, ?Hb, ?Ht in *; simpl in *;
      simplify_eq; lia.
  - destruct (strongly_sorted_head _ _ _ _ Hs Hd) as [<-|H1];
      destruct (strongly_sorted_last _ _ _ _ Hs Hd Hlast) as [->|H2];
      unfold more_recent in *; rewrite ?Ha, ?Hb, ?Ht in *; simpl in *;
      simplify_eq; lia.
Qed.

Lemma persist_time_interval_witness :
  let d0 := Demo.row "stock_sz_000001_3" 3 in
  let rest := [Demo.row "stock_sz_000001_2" 2; Demo.row "stock_sz_000001_1" 1] in
  let domain_list := d0 :: rest in
  let w := Demo.world [] in
  ∃ w',
    persist Demo.stock domain_list w = (Ok tt, w')
    ∧ logger w' = logger w ++ [InfoPersist (Entity.id Demo.stock)
                                  (Some (Z.min 3 1)) (Some (Z.max 3 1))]
    ∧ session_calls w' = session_calls w ++ [AddAll domain_list; Commit]
    ∧ (Sorted older_first domain_list ∨ Sorted more_recent domain_list →
       ∀ d t, d ∈ domain_list → Domain.timestamp d = Some t →
              Z.min 3 1 ≤ t ≤ Z.max 3 1).
Proof.
  intros d0 rest domain_list w.
  apply (persist_time_interval Demo.stock d0 rest w 3 1); reflexivity.
Defined.

(** C8, the claim as written fails: for the batch with timestamps 2, 5,
    1 the reported interval is [1, 2], though the maximum is 5. *)
Lemma persist_interval_not_min_max :
  let domain_list := [Demo.row "stock_sz_000001_2" 2; Demo.row "stock_sz_000001_5" 5;
                      Demo.row "stock_sz_000001_1" 1] in
  ∃ w',
    persist Demo.stock domain_list (Demo.world []) = (Ok tt, w')
    ∧ logger w' = [InfoPersist (Entity.id Demo.stock) (Some 1) (Some 2)]
    ∧ Demo.row "stock_sz_000001_5" 5 ∈ domain_list
    ∧ ¬ (5 ≤ 2).
Proof.
  simpl. eexists. split; [vm_compute; reflexivity|]. simpl.
  split; [done|]. split; [|lia].
  apply elem_of_cons. right. apply elem_of_cons. by left.
Qed.

(** ** generate_domain *)

Section reconciler.
Context {ext : Externals}.
Variable self : Recorder.t.
Variable entity : Entity.t.

(** The outcome for a raw payload that has its time field. *)
Lemma generate_domain_raw raw v w :
  raw !! original_time_field = Some v →
  generate_domain self entity (IsRaw raw) w
  = match rows_by_id (Entity.id entity) (derived_id entity raw) (session w) with
    | [] =>
        (Ok (true,
             Some (fill_domain_from_dict
                     (new_domain_item self entity (derived_id entity raw)
                                      (parsed_timestamp raw)) raw)),
         match to_pd_timestamp v with
         | Ok _ => w
         | Raise _ => add_log LogException w
         end)
    | item :: _ =>
        if Recorder.force_update self
        then (Ok (false, Some (fill_domain_from_dict item raw)), w)
        else (Ok (false, None), add_log (InfoIgnoreSaved (derived_id entity raw)) w)
    end.
Proof.
  intros Hv. unfold generate_domain, generate_domain_id, dict_get, get_data_by_id.
  unfold derived_id, parsed_timestamp. rewrite Hv. run.
  destruct (rows_by_id _ _ _) as [|item items] eqn:Hrows; simpl.
  - destruct (to_pd_timestamp v); reflexivity.
  - destruct (Recorder.force_update self); reflexivity.
Qed.

Lemma generate_domain_only_logged o w :
  only_logged w (generate_domain self entity o w).2.
Proof.
  destruct o as [d|raw]; [done|].
  destruct (raw !! original_time_field) as [v|] eqn:Hv.
  - rewrite (generate_domain_raw _ _ _ Hv).
    destruct (rows_by_id _ _ _); [destruct (to_pd_timestamp v)|
                                  destruct (Recorder.force_update self)]; done.
  - unfold generate_domain, generate_domain_id, dict_get. rewrite Hv. done.
Qed.

Lemma generate_domain_well_formed o w :
  well_formed o → ∃ got item, (generate_domain self entity o w).1 = Ok (got, item).
Proof.
  destruct o as [d|raw]; [by simpl; eauto|].
  intros [v Hv]. rewrite (generate_domain_raw _ _ _ Hv).
  destruct (rows_by_id _ _ _); [|destruct (Recorder.force_update self)]; simpl; eauto.
Qed.

(** The flag [got_new_data] is [counted_new]. *)
Lemma generate_domain_counted_new o w got item :
  well_formed o →
  (generate_domain self entity o w).1 = Ok (got, item) →
  got = counted_new (session w) entity o.
Proof.
  destruct o as [d|raw].
  - simpl. intros _ [= <- _]. done.
  - intros [v Hv]. rewrite (generate_domain_raw _ _ _ Hv). unfold counted_new.
    destruct (rows_by_id _ _ _) eqn:Hrows; simpl.
    + intros [= <- _]. done.
    + destruct (Recorder.force_update self); simpl; intros [= <- _]; done.
Qed.

End reconciler.

(** ** The loop of process_duplicate *)

Section duplicate_loop.
Context {ext : Externals}.
Variable self : Recorder.t.
Variable entity : Entity.t.

Local Abbreviation loop := (process_duplicate_loop self entity).

(** One turn of the loop. *)
Lemma loop_cons o rest ad dl w :
  loop (o :: rest) ad dl w
  = match generate_domain self entity o w with
    | (Ok (got, item), w1) =>
        match item with
        | Some it =>
            match filter (λ x, Domain.id x = Domain.id it) dl with
            | _ :: _ =>
                if bool_decide (Recorder.fix_duplicate_way self ≠ "add")
                then (Ok (Returned true (if got : bool then false else ad)), w1)
                else loop rest (if got : bool then false else ad)
                       (dl ++ [Domain.set_id
                                 (format_underscore (Domain.id it) (uuid1 (uuid_clock w1)))
                                 it])
                       (tick_uuid w1)
            | [] => loop rest (if got : bool then false else ad) (dl ++ [it]) w1
            end
        | None => loop rest (if got : bool then false else ad) dl w1
        end
    | (Raise e, w1) => (Raise e, w1)
    end.
Proof.
  simpl. run.
  destruct (generate_domain self entity o w) as [[[got item]|e] w1]; [|done].
  destruct item as [it|]; [|done].
  destruct (filter _ dl); [done|].
  case_bool_decide; done.
Qed.

Ltac loop_step o w got item e w1 Hgen :=
  rewrite loop_cons;
  pose proof (generate_domain_only_logged self entity o w) as Hlogged;
  destruct (generate_domain self entity o w) as [[[got item]|e] w1] eqn:Hgen;
  simpl in Hlogged; destruct Hlogged as (Hsess & Hcalls & Hclock).

(** The loop leaves the session alone and only moves the uuid clock
    forward. *)
Lemma loop_frame l ad dl w :
  session (loop l ad dl w).2 = session w
  ∧ session_calls (loop l ad dl w).2 = session_calls w
  ∧ (uuid_clock w ≤ uuid_clock (loop l ad dl w).2)%nat.
Proof.
  revert ad dl w. induction l as [|o rest IH]; intros ad dl w; [done|].
  loop_step o w got item e w1 Hgen; [|simpl; repeat split; auto; lia].
  destruct item as [it|].
  - destruct (filter _ dl).
    + destruct (IH (if got then false else ad) (dl ++ [it]) w1) as (? & ? & ?).
      simpl. repeat split; try congruence; lia.
    + case_bool_decide; [simpl; repeat split; auto; lia|].
      match goal with |- context [process_duplicate_loop _ _ rest ?a ?d ?w'] =>
        destruct (IH a d w') as (? & ? & ?) end.
      simpl in *. repeat split; try congruence; lia.
  - destruct (IH (if got then false else ad) dl w1) as (? & ? & ?).
    simpl. repeat split; try congruence; lia.
Qed.

(** On well-formed payloads the loop raises nothing. *)
Lemma loop_total l ad dl w :
  Forall well_formed l → ∃ x, (loop l ad dl w).1 = Ok x.
Proof.
  revert ad dl w. induction l as [|o rest IH]; intros ad dl w Hwf; [by eexists|].
  apply Forall_cons in Hwf as [Ho Hrest].
  destruct (generate_domain_well_formed self entity o w Ho) as (got' & item' & Hok).
  loop_step o w got item e w1 Hgen; [|done].
  destruct item as [it|]; [destruct (filter _ dl); [|case_bool_decide]|];
    eauto.
Qed.

(** An early return says "finished", and only happens when the mode is
    not ["add"]. *)
Lemma loop_returned l ad dl w fin ad' :
  (loop l ad dl w).1 = Ok (Returned fin ad') →
  fin = true ∧ Recorder.fix_duplicate_way self ≠ "add".
Proof.
  revert ad dl w. induction l as [|o rest IH]; intros ad dl w; [done|].
  loop_step o w got item e w1 Hgen; [|done].
  destruct item as [it|]; [destruct (filter _ dl); [|case_bool_decide]|];
    eauto.
  simpl. by intros [= <- _].
Qed.

(** Items already in [domain_list] stay where they are. *)
Lemma loop_completed_prefix l ad dl w ad' dl' :
  (loop l ad dl w).1 = Ok (Completed ad' dl') → dl `prefix_of` dl'.
Proof.
  revert ad dl w. induction l as [|o rest IH]; intros ad dl w.
  - simpl. by intros [= _ <-].
  - loop_step o w got item e w1 Hgen; [|done].
    destruct item as [it|]; [destruct (filter _ dl); [|case_bool_decide]|];
      try done; intros Hres; apply IH in Hres; try done;
      (etrans; [|exact Hres]); by apply prefix_app_r.
Qed.

Lemma loop_flag l ad dl w :
  Forall well_formed l →
  match (loop l ad dl w).1 with
  | Ok (Completed ad' _) => ad' = ad && none_new entity (session w) l
  | Ok (Returned _ ad') =>
      ∃ processed, processed `prefix_of` l ∧ ad' = ad && none_new entity (session w) processed
  | Raise _ => True
  end.
Proof.
  revert ad dl w. induction l as [|o rest IH]; intros ad dl w Hwf.
  - simpl. by rewrite andb_true_r.
  - apply Forall_cons in Hwf as [Ho Hrest].
    loop_step o w got item e w1 Hgen; [|done].
    assert (Hgot : got = counted_new (session w) entity o).
    { eapply generate_domain_counted_new; [done|]. by rewrite Hgen. }
    assert (Hflag : ∀ l', (if got then false else ad) && none_new entity (session w1) l'
                          = ad && none_new entity (session w) (o :: l')).
    { intros l'. rewrite Hsess. simpl. rewrite <- Hgot.
      destruct got, ad; simpl; done. }
    assert (Hnext : ∀ dl1 w2, session w2 = session w1 →
      match (loop rest (if got then false else ad) dl1 w2).1 with
      | Ok (Completed ad' _) => ad' = ad && none_new entity (session w) (o :: rest)
      | Ok (Returned _ ad') =>
          ∃ processed, processed `prefix_of` o :: rest
                       ∧ ad' = ad && none_new entity (session w) processed
      | Raise _ => True
      end).
    { intros dl1 w2 Hw2. specialize (IH (if got then false else ad) dl1 w2 Hrest).
      destruct (loop rest _ dl1 w2).1 as [[fin ad'|ad' dl']|]; [| |done].
      - destruct IH as (processed & Hpre & ->). exists (o :: processed).
        split; [by apply prefix_cons|]. rewrite Hw2. apply Hflag.
      - rewrite IH, Hw2. apply Hflag. }
    destruct item as [it|]; [destruct (filter _ dl); [|case_bool_decide]|];
      try (by apply Hnext).
    simpl. exists [o]. split; [by apply prefix_cons, prefix_nil|].
    rewrite <- Hflag. simpl. by rewrite andb_true_r.
Qed.

End duplicate_loop.

(** ** process_duplicate *)

Lemma persist_effect (entity : Entity.t) (dl : list Domain.t) (w : World) :
  dl ≠ [] →
  ∃ w',
    persist entity dl w = (Ok tt, w')
    ∧ session_calls w' = session_calls w ++ [AddAll dl; Commit]
    ∧ session w' = foldl (λ rs d, upsert d rs) (session w) dl.
Proof.
  intros Hne. destruct dl as [|d0 rest]; [done|].
  unfold persist. destruct (time_interval _ _) as [a b].
  unfold session_add_all_commit. run.
  eexists. split; [reflexivity|]. simpl. split; [|done].
  by rewrite <- app_assoc.
Qed.

Section duplicates.
Context {ext : Externals}.
Variable self : Recorder.t.
Variable entity : Entity.t.

Local Abbreviation loop := (process_duplicate_loop self entity).

(** [process_duplicate] around its loop. *)
Lemma process_duplicate_eq l w :
  l ≠ [] →
  process_duplicate self l entity w
  = match loop l true [] w with
    | (Ok (Returned fin ad), w') => (Ok (fin, ad), w')
    | (Ok (Completed ad dl), w') =>
        match dl with
        | [] => (Ok (false, ad), add_log (InfoJustDuplicated (length l)) w')
        | _ => (Ok (false, ad), (persist entity dl w').2)
        end
    | (Raise e, w') => (Raise e, w')
    end.
Proof.
  intros Hne. destruct l as [|o rest]; [done|].
  unfold process_duplicate. remember (o :: rest) as l eqn:Hl. clear Hl. run.
  destruct (process_duplicate_loop self entity l true [] w)
    as [[[fin ad|ad dl]|e] w']; try done.
  destruct dl as [|d dl]; [done|].
  destruct (persist_effect entity (d :: dl) w') as (w'' & Hp & _); [done|].
  rewrite Hp. done.
Qed.

Lemma none_new_true rows l :
  none_new entity rows l = true ↔ ∀ o, o ∈ l → counted_new rows entity o = false.
Proof.
  induction l as [|o l IH]; simpl.
  - split; [|done]. intros _ o Ho. by apply elem_of_nil in Ho.
  - rewrite andb_true_iff, IH, negb_true_iff. split.
    + intros [Ho Hl] o' Ho'. apply elem_of_cons in Ho' as [->|Ho']; auto.
    + intros Hall. split; [apply Hall; by left|].
      intros o' Ho'. apply Hall. by right.
Qed.

End duplicates.

(** C3, the claim as written fails: for an empty batch the flag is
    [True], not [False]. *)
Lemma all_duplicated_empty_batch :
  process_duplicate Demo.catch_up [] Demo.stock (Demo.world [])
  = (Ok (false, true), Demo.world []).
Proof. reflexivity. Qed.

(** ** A source timestamp that does not parse *)

(** C9, the claim as written fails: the payload whose timestamp ["x3"]
    does not parse is not skipped; it is written to the session, with no
    timestamp. *)
Lemma unparsed_timestamp_persisted :
  ∃ item w',
    to_pd_timestamp "x3" = Raise ValueError
    ∧ process_duplicate Demo.catch_up [IsRaw (Demo.payload "x3" "1.0")] Demo.stock
        (Demo.world [])
      = (Ok (false, false), w')
    ∧ session_calls w' = [AddAll [item]; Commit]
    ∧ session w' = [item]
    ∧ Domain.id item = "stock_sz_000001_x3"
    ∧ Domain.timestamp item = None
    ∧ logger w' = [LogException; InfoPersist "stock_sz_000001" None None].
Proof.
  do 2 eexists. split; [reflexivity|].
  split; [vm_compute; reflexivity|].
  repeat split.
Qed.

(** ** Force-update of saved records *)

Section force_update.
Context {ext : Externals}.
Variable self : Recorder.t.
Variable entity : Entity.t.

Hypothesis fill_keeps_id :
  ∀ d raw, Domain.id (fill_domain_from_dict d raw) = Domain.id d.
Hypothesis forced : Recorder.force_update self = true.



End force_update.




(** ** Two payloads with one derived id *)



Lemma format_underscore_inj (a b c : string) :
  format_underscore a b = format_underscore a c → b = c.
Proof.
  unfold format_underscore. intros Heq.
  apply (inj (String.app a)) in Heq. by apply (inj (String.app "_")) in Heq.
Qed.

Section collision.
Context {ext : Externals}.
Variable self : Recorder.t.
Variable entity : Entity.t.

Local Abbreviation loop := (process_duplicate_loop self entity).

(** The loop over a concatenation. *)
Lemma loop_app l1 l2 : ∀ ad dl w,
  loop (l1 ++ l2) ad dl w
  = match loop l1 ad dl w with
    | (Ok (Completed ad' dl'), w') => loop l2 ad' dl' w'
    | other => other
    end.
Proof.
  induction l1 as [|o l1 IH]; intros ad dl w; [done|].
  rewrite <- app_comm_cons, !loop_cons.
  destruct (generate_domain self entity o w) as [[[got item]|e] w1]; [|done].
  destruct item as [it|]; [destruct (filter _ dl); [|case_bool_decide]|];
    try apply IH; done.
Qed.

Hypothesis fill_keeps_id :
  ∀ d raw, Domain.id (fill_domain_from_dict d raw) = Domain.id d.



(** Over well-formed payloads the loop in the mode ["add"] runs to its
    end, adding items behind those it has. *)
Lemma loop_add_completed l ad dl w :
  Recorder.fix_duplicate_way self = "add" →
  Forall well_formed l →
  ∃ ad' items w',
    loop l ad dl w = (Ok (Completed ad' (dl ++ items)), w')
    ∧ session w' = session w
    ∧ (uuid_clock w ≤ uuid_clock w')%nat.
Proof.
  intros Hadd Hwf.
  destruct (loop_total self entity l ad dl w Hwf) as [x Hx].
  pose proof (loop_frame self entity l ad dl w) as (Hsess & _ & Hclock).
  pose proof (loop_returned self entity l ad dl w) as Hret.
  pose proof (loop_completed_prefix self entity l ad dl w) as Hpre.
  destruct (process_duplicate_loop self entity l ad dl w) as [r w'].
  simpl in *. subst r. destruct x as [fin ad'|ad' dl'].
  - destruct (Hret fin ad' eq_refl) as [_ Hne]. done.
  - destruct (Hpre ad' dl' eq_refl) as [items ->]. by exists ad', items, w'.
Qed.

Section two_payloads.
Variables (pre mid post : list Original) (p1 p2 : gmap string string).
Hypothesis wf : Forall well_formed (pre ++ IsRaw p1 :: mid ++ IsRaw p2 :: post).
Hypothesis same_id : derived_id entity p1 = derived_id entity p2.




End two_payloads.

End collision.

(** ** How far a batch gets *)

Lemma filter_id_nil (i : string) (dl : list Domain.t) :
  filter (λ x, Domain.id x = i) dl = [] ↔ i ∉ Domain.id <$> dl.
Proof.
  split.
  - intros Hnil Hin. apply list_elem_of_fmap in Hin as (x & -> & Hx).
    by apply (filter_nil_not_elem_of _ _ x Hnil).
  - intros Hnotin. destruct (filter _ dl) as [|x xs] eqn:Hf; [done|].
    assert (Hx : x ∈ filter (λ x, Domain.id x = i) dl) by (rewrite Hf; by left).
    apply list_elem_of_filter in Hx as [<- Hx].
    exfalso. apply Hnotin. by apply list_elem_of_fmap_2.
Qed.

Section outcome.
Context {ext : Externals}.
Variable self : Recorder.t.
Variable entity : Entity.t.

Local Abbreviation loop := (process_duplicate_loop self entity).

(** [generate_domain] on a well-formed item: the flag is [counted_new],
    the item is [produced]. *)
Lemma generate_domain_produced o w :
  well_formed o →
  ∃ w1,
    generate_domain self entity o w
      = (Ok (counted_new (session w) entity o, produced self entity (session w) o), w1)
    ∧ only_logged w w1.
Proof.
  destruct o as [d|raw]; [by exists w|].
  intros [v Hv].
  pose proof (generate_domain_only_logged self entity (IsRaw raw) w) as Hlog.
  rewrite (generate_domain_raw self entity raw v w Hv) in *.
  unfold counted_new, produced, built_record.
  destruct (rows_by_id _ _ (session w)) as [|item items] eqn:Hrows.
  - eexists. split; [reflexivity|done].
  - destruct (Recorder.force_update self); eexists; (split; [reflexivity|done]).
Qed.

(** The loop in a mode other than ["add"], against [processed_until]. *)
Lemma loop_processed_until l : ∀ ad dl w,
  Recorder.fix_duplicate_way self ≠ "add" →
  Forall well_formed l →
  ∃ w',
    session w' = session w
    ∧ match processed_until self entity (session w) (Domain.id <$> dl) l with
      | (p, true) =>
          loop l ad dl w
          = (Ok (Returned true (ad && none_new entity (session w) p)), w')
      | (p, false) =>
          p = l
          ∧ ∃ dl', loop l ad dl w
                   = (Ok (Completed (ad && none_new entity (session w) p) dl'), w')
      end.
Proof.
  induction l as [|o rest IH]; intros ad dl w Hmode Hwf.
  - exists w. simpl. rewrite andb_true_r. eauto.
  - apply Forall_cons in Hwf as [Ho Hrest].
    destruct (generate_domain_produced o w Ho) as (w1 & Hgen & Hs1 & _ & _).
    rewrite loop_cons, Hgen. cbn [processed_until].
    assert (Hflag : ∀ p, (if counted_new (session w) entity o then false else ad)
                         && none_new entity (session w) p
                         = ad && none_new entity (session w) (o :: p)).
    { intros p. simpl. destruct (counted_new (session w) entity o), ad; done. }
    destruct (produced self entity (session w) o) as [it|].
    + destruct (filter (λ x, Domain.id x = Domain.id it) dl) as [|x xs] eqn:Hf.
      * apply filter_id_nil in Hf. rewrite bool_decide_eq_false_2 by done.
        destruct (IH (if counted_new (session w) entity o then false else ad)
                     (dl ++ [it]) w1 Hmode Hrest) as (w' & Hs & Hloop).
        rewrite Hs1, fmap_app in Hloop. simpl in Hloop.
        destruct (processed_until _ _ _ _ rest) as [p [|]].
        -- exists w'. split; [congruence|]. by rewrite Hloop, Hflag.
        -- destruct Hloop as (-> & dl' & Hloop). exists w'. split; [congruence|].
           split; [done|]. exists dl'. by rewrite Hloop, Hflag.
      * assert (Hin : Domain.id it ∈ Domain.id <$> dl).
        { destruct (decide (Domain.id it ∈ Domain.id <$> dl)) as [|Hnotin]; [done|].
          apply filter_id_nil in Hnotin. by rewrite Hnotin in Hf. }
        rewrite !bool_decide_eq_true_2 by done.
        exists w1. split; [done|]. rewrite <- Hflag. simpl. by rewrite andb_true_r.
    + destruct (IH (if counted_new (session w) entity o then false else ad)
                   dl w1 Hmode Hrest) as (w' & Hs & Hloop).
      rewrite Hs1 in Hloop.
      destruct (processed_until _ _ _ _ rest) as [p [|]].
      * exists w'. split; [congruence|]. by rewrite Hloop, Hflag.
      * destruct Hloop as (-> & dl' & Hloop). exists w'. split; [congruence|].
        split; [done|]. exists dl'. by rewrite Hloop, Hflag.
Qed.

Lemma processed_until_prefix rows l : ∀ seen,
  (processed_until self entity rows seen l).1 `prefix_of` l
  ∧ ((processed_until self entity rows seen l).2 = false →
     (processed_until self entity rows seen l).1 = l).
Proof.
  induction l as [|o rest IH]; intros seen; simpl; [done|].
  destruct (produced self entity rows o) as [it|].
  - case_bool_decide; simpl.
    + split; [|done]. apply prefix_cons, prefix_nil.
    + destruct (IH (seen ++ [Domain.id it])) as [Hpre Hall].
      destruct (processed_until _ _ _ _ rest) as [p c]; simpl in *.
      split; [by apply prefix_cons|]. intros Hc. by rewrite Hall.
  - destruct (IH seen) as [Hpre Hall].
    destruct (processed_until _ _ _ _ rest) as [p c]; simpl in *.
    split; [by apply prefix_cons|]. intros Hc. by rewrite Hall.
Qed.

(** [process_duplicate] against [batch_outcome]. *)
Lemma process_duplicate_outcome batch w :
  Forall well_formed batch →
  ∃ w',
    process_duplicate self batch entity w
    = (Ok ((batch_outcome self entity (session w) batch).2,
           none_new entity (session w) (batch_outcome self entity (session w) batch).1),
       w').
Proof.
  intros Hwf. destruct (decide (batch = [])) as [->|Hne].
  - exists w. unfold batch_outcome. by case_bool_decide.
  - rewrite process_duplicate_eq by done. unfold batch_outcome.
    case_bool_decide as Hmode.
    + destruct (loop_total self entity batch true [] w Hwf) as [x Hx].
      pose proof (loop_flag self entity batch true [] w Hwf) as Hflag.
      pose proof (loop_returned self entity batch true [] w) as Hret.
      destruct (process_duplicate_loop self entity batch true [] w) as [r w'].
      simpl in Hx, Hflag, Hret. subst r. destruct x as [fin ad|ad dl].
      * by destruct (Hret fin ad eq_refl) as [_ Hne'].
      * simpl in *. subst ad. destruct dl; eexists; reflexivity.
    + destruct (loop_processed_until batch true [] w Hmode Hwf) as (w' & _ & Hloop).
      simpl in Hloop.
      destruct (processed_until self entity (session w) [] batch) as [p [|]]; simpl.
      * rewrite Hloop. by exists w'.
      * destruct Hloop as (-> & dl' & ->). destruct dl'; eexists; reflexivity.
Qed.

End outcome.

(** C3, as the code has it. For a batch of well-formed payloads
    [process_duplicate] returns early exactly when the mode is not
    ["add"] and the item of a payload has the id of an item already in
    the list; it has then gone through the payloads up to that one, and
    otherwise through the whole batch. The flag [all_duplicated] it
    answers is [True] if and only if none of the payloads gone through
    was counted as new. In particular it is [True] for an empty batch.
    The overlay of the mapped fields is supposed to leave ids alone. *)
Theorem all_duplicated_iff_none_new `{Externals} (self : Recorder.t)
    (entity : Entity.t) (batch : list Original) (w : World) :
  (∀ d raw, Domain.id (fill_domain_from_dict d raw) = Domain.id d) →
  Forall well_formed batch →
  let processed := (batch_outcome self entity (session w) batch).1 in
  let fin := (batch_outcome self entity (session w) batch).2 in
  ∃ ad w',
    process_duplicate self batch entity w = (Ok (fin, ad), w')
    ∧ processed `prefix_of` batch
    ∧ (fin = false → processed = batch)
    ∧ (Recorder.fix_duplicate_way self = "add" → fin = false)
    ∧ (ad = true ↔ ∀ o, o ∈ processed → counted_new (session w) entity o = false)
    ∧ (batch = [] → ad = true).
Proof.
  intros _ Hwf processed fin.
  destruct (process_duplicate_outcome self entity batch w Hwf) as (w' & Hres).
  exists (none_new entity (session w) processed), w'.
  split; [exact Hres|].
  assert (Hshape : processed `prefix_of` batch ∧ (fin = false → processed = batch)
                   ∧ (Recorder.fix_duplicate_way self = "add" → fin = false)).
  { unfold processed, fin, batch_outcome. case_bool_decide as Hmode; simpl.
    - done.
    - destruct (processed_until_prefix self entity (session w) batch []) as [Hp Ha].
      done. }
  destruct Hshape as (Hp & Ha & Hm).
  split; [done|]. split; [done|]. split; [done|]. split; [apply none_new_true|].
  intros ->. unfold processed, batch_outcome. by case_bool_decide.
Qed.

Lemma all_duplicated_iff_none_new_witness :
  let self := Demo.recorder TimeSeriesDataRecorder false false "ignore" None (Some 0) (Some 0) in
  let batch := [IsRaw (Demo.payload "3" "1.0"); IsRaw (Demo.payload "4" "2.0");
                IsRaw (Demo.payload "4" "2.5"); IsRaw (Demo.payload "5" "3.0")] in
  let w := Demo.world [Demo.row "stock_sz_000001_3" (3 * Timestamp.ns_per_day)] in
  let processed := (batch_outcome self Demo.stock (session w) batch).1 in
  let fin := (batch_outcome self Demo.stock (session w) batch).2 in
  ∃ ad w',
    process_duplicate self batch Demo.stock w = (Ok (fin, ad), w')
    ∧ processed `prefix_of` batch
    ∧ (fin = false → processed = batch)
    ∧ (Recorder.fix_duplicate_way self = "add" → fin = false)
    ∧ (ad = true ↔ ∀ o, o ∈ processed → counted_new (session w) Demo.stock o = false)
    ∧ (batch = [] → ad = true).
Proof.
  intros self batch w.
  apply (all_duplicated_iff_none_new self Demo.stock batch w).
  - reflexivity.
  - repeat constructor; vm_compute; eauto.
Defined.




(** ** A source timestamp that does not parse, anywhere in a batch *)

Lemma set_id_id (d : Domain.t) : Domain.set_id (Domain.id d) d = d.
Proof. by destruct d. Qed.

Lemma set_id_set_id (a b : string) (d : Domain.t) :
  Domain.set_id a (Domain.set_id b d) = Domain.set_id a d.
Proof. done. Qed.

Section unparsed.
Context {ext : Externals}.
Variable self : Recorder.t.
Variable entity : Entity.t.

Local Abbreviation loop := (process_duplicate_loop self entity).

(** The log only grows. *)
Lemma generate_domain_logger o w :
  logger w `prefix_of` logger (generate_domain self entity o w).2.
Proof.
  destruct o as [d|raw]; [done|].
  destruct (raw !! original_time_field) as [v|] eqn:Hv.
  - rewrite (generate_domain_raw self entity raw v w Hv).
    destruct (rows_by_id _ _ _); [destruct (to_pd_timestamp v)|
                                  destruct (Recorder.force_update self)];
      simpl; try done; by apply prefix_app_r.
  - unfold generate_domain, generate_domain_id, dict_get. rewrite Hv. done.
Qed.

Lemma loop_logger l : ∀ ad dl w,
  logger w `prefix_of` logger (loop l ad dl w).2.
Proof.
  induction l as [|o rest IH]; intros ad dl w; [done|].
  rewrite loop_cons.
  pose proof (generate_domain_logger o w) as Hlog.
  destruct (generate_domain self entity o w) as [[[got item]|e] w1]; [|done].
  simpl in Hlog.
  destruct item as [it|]; [destruct (filter _ dl); [|case_bool_decide]|];
    try done; (etrans; [exact Hlog|]);
    first [apply IH | exact (IH _ _ (tick_uuid w1))].
Qed.

Lemma persist_logger dl w :
  logger w `prefix_of` logger (persist entity dl w).2.
Proof.
  destruct dl as [|d0 rest]; [done|].
  unfold persist. destruct (time_interval _ _) as [a b].
  unfold session_add_all_commit. run. simpl. by apply prefix_app_r.
Qed.

Variables (pre post : list Original) (raw : gmap string string) (v : string) (e : exn).
Hypothesis wf : Forall well_formed (pre ++ IsRaw raw :: post).
Hypothesis time_field : raw !! original_time_field = Some v.
Hypothesis unparsed : to_pd_timestamp v = Raise e.

Local Abbreviation item :=
  (fill_domain_from_dict (new_domain_item self entity (derived_id entity raw) None) raw).

Lemma generate_domain_unparsed w :
  rows_by_id (Entity.id entity) (derived_id entity raw) (session w) = [] →
  generate_domain self entity (IsRaw raw) w
  = (Ok (true, Some item), add_log LogException w).
Proof.
  intros Hrows.
  rewrite (generate_domain_raw self entity raw v w time_field), Hrows, unparsed.
  unfold parsed_timestamp. by rewrite time_field; simpl; rewrite unparsed.
Qed.

(** When the loop runs through a batch that holds the payload, the
    record of the payload is in the list, the exception is in the log
    and the flag is down. *)
Lemma loop_unparsed ad dl w :
  rows_by_id (Entity.id entity) (derived_id entity raw) (session w) = [] →
  match loop (pre ++ IsRaw raw :: post) ad dl w with
  | (Ok (Completed ad' dl'), w') =>
      ad' = false ∧ LogException ∈ logger w'
      ∧ ∃ l1 r l3, dl' = dl ++ l1 ++ r :: l3 ∧ Domain.set_id (Domain.id item) r = item
  | _ => True
  end.
Proof.
  intros Hrows.
  apply Forall_app in wf as [Hpre Hwf]. apply Forall_cons in Hwf as [_ Hpost].
  rewrite loop_app.
  pose proof (loop_frame self entity pre ad dl w) as (Hs1 & _ & _).
  pose proof (loop_completed_prefix self entity pre ad dl w) as Hpre1.
  destruct (process_duplicate_loop self entity pre ad dl w)
    as [[[fin1 ad1|ad1 dl1]|e1] w1]; [done| |done].
  simpl in Hs1, Hpre1. destruct (Hpre1 ad1 dl1 eq_refl) as [k1 ->].
  rewrite loop_cons, generate_domain_unparsed by (by rewrite Hs1).
  assert (Hrest : ∀ r w2,
    Domain.set_id (Domain.id item) r = item →
    logger (add_log LogException w1) `prefix_of` logger w2 →
    match loop post false ((dl ++ k1) ++ [r]) w2 with
    | (Ok (Completed ad' dl'), w') =>
        ad' = false ∧ LogException ∈ logger w'
        ∧ ∃ l1 r l3, dl' = dl ++ l1 ++ r :: l3 ∧ Domain.set_id (Domain.id item) r = item
    | _ => True
    end).
  { intros r w2 Hr Hlog.
    pose proof (loop_flag self entity post false ((dl ++ k1) ++ [r]) w2 Hpost) as Hflag.
    pose proof (loop_completed_prefix self entity post false ((dl ++ k1) ++ [r]) w2)
      as Hpre3.
    pose proof (loop_logger post false ((dl ++ k1) ++ [r]) w2) as Hlog3.
    destruct (process_duplicate_loop self entity post false ((dl ++ k1) ++ [r]) w2)
      as [[[fin3 ad3|ad3 dl3]|e3] w3]; [done| |done].
    simpl in Hflag, Hpre3, Hlog3. destruct (Hpre3 ad3 dl3 eq_refl) as [k3 ->].
    split; [done|]. split.
    - assert (Hpre' : logger (add_log LogException w1) `prefix_of` logger w3)
        by (by etrans).
      destruct Hpre' as [k ->]. simpl. apply elem_of_app. left.
      apply elem_of_app. right. by left.
    - exists k1, r, k3. split; [|done]. by rewrite <- !app_assoc. }
  cbv beta match.
  destruct (filter _ (dl ++ k1)); [|case_bool_decide; [done|]].
  - apply Hrest; [apply set_id_id|done].
  - apply Hrest; [|done]. by rewrite set_id_set_id, set_id_id.
Qed.

End unparsed.

(** C9, as the code has it. For a raw payload not saved before whose
    source timestamp fails to parse, anywhere in a batch of well-formed
    payloads: [generate_domain] logs the exception and still builds the
    record, with an empty timestamp, counted as new, and the loop goes on
    with the rest of the batch, the record in its list. Whenever
    [process_duplicate] does not return early on an in-batch collision
    (it never does in the mode ["add"], nor when the payload is alone),
    the record is in the list handed to [add_all] and committed, under
    its derived id or a suffixed one, the exception is in the log and the
    batch is not all-duplicate. The overlay of the mapped fields is
    supposed to leave ids alone. *)
Theorem unparsed_timestamp_kept `{Externals} (self : Recorder.t) (entity : Entity.t)
    (pre post : list Original) (raw : gmap string string) (v : string) (e : exn)
    (w : World) :
  let batch := pre ++ IsRaw raw :: post in
  let item := fill_domain_from_dict
                (new_domain_item self entity (derived_id entity raw) None) raw in
  let fin := (batch_outcome self entity (session w) batch).2 in
  (∀ d raw, Domain.id (fill_domain_from_dict d raw) = Domain.id d) →
  Forall well_formed batch →
  raw !! original_time_field = Some v →
  to_pd_timestamp v = Raise e →
  rows_by_id (Entity.id entity) (derived_id entity raw) (session w) = [] →
  generate_domain self entity (IsRaw raw) w
    = (Ok (true, Some item), add_log LogException w)
  ∧ (∀ rest ad dl,
       filter (λ x, Domain.id x = Domain.id item) dl = [] →
       process_duplicate_loop self entity (IsRaw raw :: rest) ad dl w
       = process_duplicate_loop self entity rest false (dl ++ [item])
           (add_log LogException w))
  ∧ ∃ ad w',
      process_duplicate self batch entity w = (Ok (fin, ad), w')
      ∧ (Recorder.fix_duplicate_way self = "add" → fin = false)
      ∧ (pre = [] → post = [] → fin = false)
      ∧ (fin = false →
         ad = false
         ∧ LogException ∈ logger w'
         ∧ ∃ l1 r l3,
             session_calls w' = session_calls w ++ [AddAll (l1 ++ r :: l3); Commit]
             ∧ Domain.set_id (Domain.id item) r = item).
Proof.
  intros batch item fin Hfill Hwf Hv Hparse Hrows.
  pose proof (generate_domain_unparsed self entity raw v e Hv Hparse w Hrows) as Hgen.
  split; [exact Hgen|]. split.
  { intros rest ad dl Hfilter. fold item in Hgen. rewrite loop_cons, Hgen, Hfilter. done. }
  destruct (process_duplicate_outcome self entity batch w Hwf) as (w' & Hres).
  fold fin in Hres. eexists _, w'. split; [exact Hres|].
  split; [|split].
  - intros Hadd. unfold fin, batch_outcome. by rewrite bool_decide_eq_true_2.
  - intros -> ->. unfold fin, batch_outcome, batch. case_bool_decide; [done|].
    simpl. unfold produced. by rewrite Hrows.
  - intros Hfin.
    rewrite process_duplicate_eq in Hres by (unfold batch; by destruct pre).
    pose proof (loop_unparsed self entity pre post raw v e Hwf Hv Hparse true [] w Hrows)
      as Hloop.
    pose proof (loop_frame self entity batch true [] w) as (_ & Hc & _).
    pose proof (loop_returned self entity batch true [] w) as Hret.
    fold batch in Hloop.
    destruct (process_duplicate_loop self entity batch true [] w)
      as [[[fin1 ad1|ad1 dl1]|e1] w1]; [|clear Hfin|done].
    { destruct (Hret fin1 ad1 eq_refl) as [-> _].
      injection Hres as Hf _ _. rewrite Hfin in Hf. done. }
    destruct Hloop as (-> & Hlog & l1 & r & l3 & -> & Hr). simpl in Hc, Hres |- *.
    destruct (persist_effect entity (l1 ++ r :: l3) w1) as (w2 & Hp & Hcalls & _);
      [by destruct l1|].
    pose proof (persist_logger entity (l1 ++ r :: l3) w1) as Hplog.
    rewrite Hp in Hres, Hplog. simpl in Hplog.
    assert (Hres' : (Ok (false, false), w2)
                    = (Ok (fin, none_new entity (session w)
                                  (batch_outcome self entity (session w) batch).1), w')).
    { rewrite <- Hres. by destruct (l1 ++ r :: l3) eqn:Hl; [destruct l1|]. }
    injection Hres' as _ <- <-.
    split; [done|]. split.
    + destruct Hplog as [k ->]. apply elem_of_app. by left.
    + exists l1, r, l3. by rewrite Hcalls, Hc.
Qed.

Lemma unparsed_timestamp_kept_witness :
  let self := Demo.catch_up in
  let pre := [IsRaw (Demo.payload "3" "1.0")] in
  let post := [IsRaw (Demo.payload "4" "2.0")] in
  let raw := Demo.payload "x3" "1.0" in
  let w := Demo.world [] in
  let batch := pre ++ IsRaw raw :: post in
  let item := fill_domain_from_dict
                (new_domain_item self Demo.stock (derived_id Demo.stock raw) None) raw in
  let fin := (batch_outcome self Demo.stock (session w) batch).2 in
  generate_domain self Demo.stock (IsRaw raw) w
    = (Ok (true, Some item), add_log LogException w)
  ∧ (∀ rest ad dl,
       filter (λ x, Domain.id x = Domain.id item) dl = [] →
       process_duplicate_loop self Demo.stock (IsRaw raw :: rest) ad dl w
       = process_duplicate_loop self Demo.stock rest false (dl ++ [item])
           (add_log LogException w))
  ∧ ∃ ad w',
      process_duplicate self batch Demo.stock w = (Ok (fin, ad), w')
      ∧ (Recorder.fix_duplicate_way self = "add" → fin = false)
      ∧ (pre = [] → post = [] → fin = false)
      ∧ (fin = false →
         ad = false
         ∧ LogException ∈ logger w'
         ∧ ∃ l1 r l3,
             session_calls w' = session_calls w ++ [AddAll (l1 ++ r :: l3); Commit]
             ∧ Domain.set_id (Domain.id item) r = item).
Proof.
  intros self pre post raw w.
  apply (unparsed_timestamp_kept self Demo.stock pre post raw "x3" ValueError w).
  - reflexivity.
  - repeat constructor; vm_compute; eauto.
  - vm_compute. reflexivity.
  - vm_compute. reflexivity.
  - reflexivity.
Defined.

(** * Further properties of the recorders *)

(** ** Windows of the generic and the fixed-cycle policy *)

Lemma latest_rows_none entity_id limit rows :
  rows_of entity_id rows = [] → latest_rows entity_id limit rows = [].
Proof.
  unfold rows_of, latest_rows. intros ->. by destruct limit.
Qed.

Lemma get_latest_saved_record_none `{Externals} (self : Recorder.t)
    (entity : Entity.t) (w : World) :
  rows_of (Entity.id entity) (session w) = [] →
  get_latest_saved_record self entity w = (Ok None, w).
Proof.
  intros Hnone. unfold get_latest_saved_record.
  destruct (Recorder.cls self);
    unfold get_latest_saved_record_time_series, get_latest_saved_record_fixed_cycle,
           get_data_latest; run; by rewrite latest_rows_none.
Qed.

(** X1. An entity with no saved record and no list date: the generic policy
    asks for [default_size] records between the configured start and
    end, the fixed-cycle policy for [default_size] records with no start
    and no end. Nothing is written and nothing is raised. *)
Theorem window_without_history `{Externals} (self : Recorder.t) (now : Z)
    (entity : Entity.t) (trade_day : list Z) (stock_detail : gmap string Z)
    (w : World) :
  rows_of (Entity.id entity) (session w) = [] →
  Entity.timestamp entity = None →
  (Recorder.cls self = TimeSeriesDataRecorder →
   evaluate_start_end_size_timestamps self now entity trade_day stock_detail w
   = (Ok (Window.mk (Recorder.start_timestamp self) (Recorder.end_timestamp self)
                    (head trade_day) (Recorder.default_size self) None), w))
  ∧ (Recorder.cls self = FixedCycleDataRecorder →
     evaluate_start_end_size_timestamps self now entity trade_day stock_detail w
     = (Ok (Window.mk None None (head trade_day) (Recorder.default_size self) None), w)).
Proof.
  intros Hnone Hlist.
  assert (Hnot : not_listed_yet now entity = false)
    by (unfold not_listed_yet; by rewrite Hlist).
  split; intros Hcls; unfold evaluate_start_end_size_timestamps; rewrite Hcls.
  - unfold evaluate_time_series. rewrite Hnot. run.
    rewrite get_latest_saved_record_none by done. rewrite Hlist, trade_at_0. done.
  - unfold evaluate_fixed_cycle. rewrite Hnot. run.
    rewrite get_latest_saved_record_none by done. rewrite Hlist, trade_at_0. done.
Qed.

Lemma window_without_history_witness :
  let self := Demo.recorder FixedCycleDataRecorder true false "ignore" None (Some 15) (Some 0) in
  let entity := Entity.mk "stock_sz_000002" "000002" None None in
  let w := Demo.world [Demo.row "stock_sz_000001_3" 3] in
  (Recorder.cls self = TimeSeriesDataRecorder →
   evaluate_start_end_size_timestamps self 40 entity [7; 5] ∅ w
   = (Ok (Window.mk (Recorder.start_timestamp self) (Recorder.end_timestamp self)
                    (head [7; 5]) (Recorder.default_size self) None), w))
  ∧ (Recorder.cls self = FixedCycleDataRecorder →
     evaluate_start_end_size_timestamps self 40 entity [7; 5] ∅ w
     = (Ok (Window.mk None None (head [7; 5]) (Recorder.default_size self) None), w)).
Proof.
  intros self entity w.
  apply (window_without_history self 40 entity [7; 5] ∅ w); reflexivity.
Defined.

(** X2. The generic policy never raises and never touches its
    surroundings; the size it answers is 0, [default_size], or, with no
    end configured, a day count. *)
Theorem generic_window_read_only `{Externals} (self : Recorder.t) (now : Z)
    (entity : Entity.t) (trade_day : list Z) (stock_detail : gmap string Z)
    (w : World) :
  Recorder.cls self = TimeSeriesDataRecorder →
  ∃ win,
    evaluate_start_end_size_timestamps self now entity trade_day stock_detail w
      = (Ok win, w)
    ∧ Window.trade win = head trade_day
    ∧ Window.timestamps win = None
    ∧ (Window.size win = 0
       ∨ Window.size win = Recorder.default_size self
       ∨ (Recorder.end_timestamp self = None
          ∧ ∃ start, Window.start win = Some start
                     ∧ Window.size win
                       = Timestamp.days (Timestamp.replace_hms0 now - start))).
Proof.
  intros Hcls.
  destruct (not_listed_yet now entity) eqn:Hnot.
  - rewrite evaluate_not_listed_yet by (done || by rewrite Hcls).
    eexists. split; [done|]. simpl. auto.
  - destruct (latest_timestamp_of (session w) entity) as [lt|] eqn:Hlt.
    + rewrite (evaluate_time_series_known_start self now entity trade_day stock_detail
                 w lt Hcls Hnot Hlt).
      eexists. split; [done|]. simpl. split; [done|]. split; [done|].
      destruct (Recorder.end_timestamp self) as [e|].
      * case_bool_decide; auto.
      * right. right. eauto.
    + unfold evaluate_start_end_size_timestamps, evaluate_time_series.
      rewrite Hcls, Hnot. unfold get_latest_saved_record. rewrite Hcls. run.
      rewrite get_latest_saved_record_time_series_eq.
      unfold latest_timestamp_of in Hlt.
      destruct (latest_rows _ _ _) as [|r rs]; simpl in *; rewrite Hlt, trade_at_0;
        eexists; (split; [done|]); simpl; auto.
Qed.

Lemma generic_window_read_only_witness :
  let w := Demo.world [Demo.row "stock_sz_000001_100" (Timestamp.make 100 0 0)] in
  ∃ win,
    evaluate_start_end_size_timestamps Demo.catch_up (Timestamp.make 103 10 0)
      Demo.stock [] ∅ w = (Ok win, w)
    ∧ Window.trade win = head []
    ∧ Window.timestamps win = None
    ∧ (Window.size win = 0
       ∨ Window.size win = Recorder.default_size Demo.catch_up
       ∨ (Recorder.end_timestamp Demo.catch_up = None
          ∧ ∃ start, Window.start win = Some start
                     ∧ Window.size win
                       = Timestamp.days
                           (Timestamp.replace_hms0 (Timestamp.make 103 10 0) - start))).
Proof.
  intros w.
  apply (generic_window_read_only Demo.catch_up (Timestamp.make 103 10 0)
           Demo.stock [] ∅ w).
  reflexivity.
Defined.

Lemma list_index_Some (x : Z) (l : list Z) (i : nat) :
  list_index x l = Some i → l !! i = Some x ∧ ∃ tl, drop i l = x :: tl.
Proof.
  revert i. induction l as [|y l IH]; intros i; simpl; [done|].
  case_bool_decide as Hy.
  - intros [= <-]. subst y. simpl. eauto.
  - destruct (list_index x l) as [j|]; simpl; [|done].
    intros [= <-]. simpl. by apply IH.
Qed.

Lemma list_index_None (x : Z) (l : list Z) :
  list_index x l = None ↔ x ∉ l.
Proof.
  induction l as [|y l IH]; simpl.
  - split; [intros _; apply not_elem_of_nil|done].
  - case_bool_decide as Hy.
    + subst y. split; [done|]. intros Hnot. exfalso. apply Hnot. by left.
    + rewrite not_elem_of_cons. destruct (list_index x l); simpl.
      * split; [done|]. intros [_ Hnot]. by apply IH in Hnot.
      * split; [|done]. intros _. split; [congruence|]. by apply IH.
Qed.

Section fixed_cycle_window.
Context {ext : Externals}.
Variable self : Recorder.t.

Lemma evaluate_fixed_cycle_known now entity trade_day stock_detail w latest w1 t :
  Recorder.cls self = FixedCycleDataRecorder →
  not_listed_yet now entity = false →
  get_latest_saved_record self entity w = (Ok latest, w1) →
  last_known latest entity = Some t →
  evaluate_start_end_size_timestamps self now entity trade_day stock_detail w
  = match stock_detail !! Entity.id entity with
    | Some end_date =>
        if bool_decide (0 < date_delta now end_date) then
          match list_index end_date trade_day with
          | Some i => fixed_cycle_finish self now t trade_day i w1
          | None =>
              fixed_cycle_finish self now t trade_day (close_trade_index self now trade_day)
                                 (add_log WarningNoTimestamp w1)
          end
        else fixed_cycle_finish self now t trade_day (close_trade_index self now trade_day) w1
    | None => fixed_cycle_finish self now t trade_day (close_trade_index self now trade_day) w1
    end.
Proof.
  intros Hcls Hnot Hrec Hknown.
  unfold evaluate_start_end_size_timestamps, evaluate_fixed_cycle.
  rewrite Hcls, Hnot. run. rewrite Hrec. unfold last_known in Hknown.
  rewrite Hknown. unfold fixed_cycle_finish, close_trade_index.
  destruct (stock_detail !! Entity.id entity) as [d|]; simpl.
  - case_bool_decide; simpl.
    + destruct (list_index d trade_day); simpl;
        destruct (trade_at trade_day _ _) as [[tr|e] w2]; done.
    + destruct (trade_at trade_day _ _) as [[tr|e] w2]; done.
  - destruct (trade_at trade_day _ _) as [[tr|e] w2]; done.
Qed.

End fixed_cycle_window.

(** X3. With a trading calendar of one day, that day being today and the
    close still ahead, the fixed-cycle policy indexes the calendar at 1:
    the evaluation raises IndexError (unless a passed end date moves the
    index), and [process_loop] logs it and gives the entity up. *)
Theorem fixed_cycle_single_day_raises `{Externals} (self : Recorder.t) (now t d0 : Z)
    (entity : Entity.t) (stock_detail : gmap string Z) (w w1 : World)
    (latest : option Domain.t) (fuel : nat) (clock : nat → Z) :
  Recorder.cls self = FixedCycleDataRecorder →
  not_listed_yet now entity = false →
  get_latest_saved_record self entity w = (Ok latest, w1) →
  last_known latest entity = Some t →
  0 < count_mins_before_close_time now (Recorder.close_hour self)
                                   (Recorder.close_minute self) →
  is_same_date d0 now = true →
  (∀ d, stock_detail !! Entity.id entity = Some d → date_delta now d ≤ 0) →
  clock 0%nat = now →
  evaluate_start_end_size_timestamps self now entity [d0] stock_detail w
    = (Raise IndexError, w1)
  ∧ process_loop self (S fuel) clock entity [d0] stock_detail w
    = (Some tt, add_log (ExceptionRecording (Entity.id entity) IndexError) w1).
Proof.
  intros Hcls Hnot Hrec Hknown Hmins Hsame Hend Hclock.
  assert (Heval : evaluate_start_end_size_timestamps self now entity [d0] stock_detail w
                  = (Raise IndexError, w1)).
  { rewrite (evaluate_fixed_cycle_known self now entity [d0] stock_detail w latest w1 t)
      by done.
    assert (Hidx : close_trade_index self now [d0] = 1%nat).
    { unfold close_trade_index. rewrite bool_decide_eq_true_2 by done. by rewrite Hsame. }
    rewrite Hidx.
    destruct (stock_detail !! Entity.id entity) as [d|] eqn:Hd; [|done].
    rewrite bool_decide_eq_false_2; [done|]. specialize (Hend d eq_refl). lia. }
  split; [done|].
  apply process_loop_failed. rewrite Hclock.
  unfold process_entity. run. by rewrite Heval.
Qed.

Lemma fixed_cycle_single_day_raises_witness :
  let self := Demo.recorder FixedCycleDataRecorder true false "ignore" None (Some 15) (Some 0) in
  let now := Timestamp.make 100 10 0 in
  let r := Demo.row "stock_sz_000001_99" (Timestamp.make 99 0 0) in
  let w := Demo.world [r] in
  evaluate_start_end_size_timestamps self now Demo.stock [Timestamp.make 100 0 0] ∅ w
    = (Raise IndexError, w)
  ∧ process_loop self 1 (λ _, now) Demo.stock [Timestamp.make 100 0 0] ∅ w
    = (Some tt, add_log (ExceptionRecording (Entity.id Demo.stock) IndexError) w).
Proof.
  intros self now r w.
  apply (fixed_cycle_single_day_raises self now (Timestamp.make 99 0 0)
           (Timestamp.make 100 0 0) Demo.stock ∅ w w (Some r) 0 (λ _, now)).
  - reflexivity.
  - vm_compute. reflexivity.
  - vm_compute. reflexivity.
  - reflexivity.
  - vm_compute. reflexivity.
  - vm_compute. reflexivity.
  - intros d Hd. by rewrite lookup_empty in Hd.
  - reflexivity.
Defined.

(** X4. A delisted entity (its end date has passed). When the end date is a
    trading day the calendar is cut there: the trade date of the window
    is the end date and the size is counted over the days from it on.
    When it is not, a warning is logged and the index stays where the
    close test put it. *)
Theorem fixed_cycle_end_date `{Externals} (self : Recorder.t) (now t end_date : Z)
    (entity : Entity.t) (trade_day : list Z) (stock_detail : gmap string Z)
    (w w1 : World) (latest : option Domain.t) :
  Recorder.cls self = FixedCycleDataRecorder →
  not_listed_yet now entity = false →
  get_latest_saved_record self entity w = (Ok latest, w1) →
  last_known latest entity = Some t →
  stock_detail !! Entity.id entity = Some end_date →
  0 < date_delta now end_date →
  (end_date ∈ trade_day →
   ∃ i rest,
     drop i trade_day = end_date :: rest
     ∧ (end_date ∉ take i trade_day)
     ∧ evaluate_start_end_size_timestamps self now entity trade_day stock_detail w
       = (Ok (Window.mk (Some t) None (Some end_date)
                (evaluate_size_from_timestamp t now (Recorder.level self)
                   (Recorder.one_day_trading_minutes self) (end_date :: rest))
                None), w1))
  ∧ (end_date ∉ trade_day →
     evaluate_start_end_size_timestamps self now entity trade_day stock_detail w
     = fixed_cycle_finish self now t trade_day (close_trade_index self now trade_day)
                          (add_log WarningNoTimestamp w1)).
Proof.
  intros Hcls Hnot Hrec Hknown Hend Hdays.
  rewrite (evaluate_fixed_cycle_known self now entity trade_day stock_detail w latest w1 t)
    by done.
  rewrite Hend, bool_decide_eq_true_2 by done. split.
  - intros Hin. destruct (list_index end_date trade_day) as [i|] eqn:Hidx.
    + destruct (list_index_Some _ _ _ Hidx) as [Hlook [rest Hdrop]].
      exists i, rest. split; [done|]. split.
      * clear Hlook Hdrop Hin. revert i Hidx.
        induction trade_day as [|y l IH]; intros i; simpl; [done|].
        case_bool_decide as Hy; [intros [= <-]; apply not_elem_of_nil|].
        destruct (list_index end_date l) as [j|] eqn:Hj; simpl; [|done].
        intros [= <-]. simpl. apply not_elem_of_cons. split; [congruence|].
        by apply IH.
      * unfold fixed_cycle_finish, trade_at. rewrite Hlook, Hdrop.
        by destruct trade_day.
    + apply list_index_None in Hidx. done.
  - intros Hnotin. apply list_index_None in Hnotin. by rewrite Hnotin.
Qed.

Lemma fixed_cycle_end_date_witness :
  let self := Demo.recorder FixedCycleDataRecorder true false "ignore" None (Some 15) (Some 0) in
  let now := Timestamp.make 100 10 0 in
  let r := Demo.row "stock_sz_000001_90" (Timestamp.make 90 0 0) in
  let w := Demo.world [r] in
  let trade_day := [Timestamp.make 100 0 0; Timestamp.make 97 0 0; Timestamp.make 96 0 0] in
  let stock_detail : gmap string Z := {[ "stock_sz_000001" := Timestamp.make 97 0 0 ]} in
  (Timestamp.make 97 0 0 ∈ trade_day →
   ∃ i rest,
     drop i trade_day = Timestamp.make 97 0 0 :: rest
     ∧ (Timestamp.make 97 0 0 ∉ take i trade_day)
     ∧ evaluate_start_end_size_timestamps self now Demo.stock trade_day stock_detail w
       = (Ok (Window.mk (Some (Timestamp.make 90 0 0)) None (Some (Timestamp.make 97 0 0))
                (evaluate_size_from_timestamp (Timestamp.make 90 0 0) now
                   (Recorder.level self) (Recorder.one_day_trading_minutes self)
                   (Timestamp.make 97 0 0 :: rest))
                None), w))
  ∧ (Timestamp.make 97 0 0 ∉ trade_day →
     evaluate_start_end_size_timestamps self now Demo.stock trade_day stock_detail w
     = fixed_cycle_finish self now (Timestamp.make 90 0 0) trade_day
         (close_trade_index self now trade_day) (add_log WarningNoTimestamp w)).
Proof.
  intros self now r w trade_day stock_detail.
  apply (fixed_cycle_end_date self now (Timestamp.make 90 0 0) (Timestamp.make 97 0 0)
           Demo.stock trade_day stock_detail w w (Some r)).
  - reflexivity.
  - vm_compute. reflexivity.
  - vm_compute. reflexivity.
  - reflexivity.
  - vm_compute. reflexivity.
  - vm_compute. reflexivity.
Defined.

(** ** Windows of the explicit-timestamp policy *)

Lemma merge_sort_sorted_id (l : list Z) : Sorted Z.le l → merge_sort Z.le l = l.
Proof.
  intros Hs. apply (Sorted_unique Z.le); [apply Sorted_merge_sort; apply _|done|].
  apply merge_sort_Permutation.
Qed.

Lemma merge_sort_idempotent (l : list Z) :
  merge_sort Z.le (merge_sort Z.le l) = merge_sort Z.le l.
Proof. apply merge_sort_sorted_id, Sorted_merge_sort. apply _. Qed.

Lemma merge_sort_nil_inv (l : list Z) : merge_sort Z.le l = [] → l = [].
Proof.
  intros Hnil. pose proof (merge_sort_Permutation Z.le l) as Hp.
  rewrite Hnil in Hp. by apply Permutation_nil_l in Hp.
Qed.

Lemma strongly_sorted_filter {A} (R : relation A) (P : A → Prop)
    `{∀ x, Decision (P x)} (l : list A) :
  StronglySorted R l → StronglySorted R (filter P l).
Proof.
  induction 1 as [|x l Hl IH Hall]; [constructor|].
  rewrite filter_cons. destruct (decide (P x)); [|done].
  constructor; [done|].
  rewrite Forall_forall in Hall |- *. intros y Hy.
  apply list_elem_of_filter in Hy as [_ Hy]. by apply Hall.
Qed.

Section timestamps_window_facts.
Context {ext : Externals}.
Variable self : Recorder.t.
Hypothesis cls_timestamps : Recorder.cls self = TimestampsDataRecorder.

(** A cycle that finds a non-empty cached list. *)
Lemma evaluate_timestamps_hit now entity trade_day stock_detail w cached :
  security_timestamps_map w !! Entity.id entity = Some cached →
  cached ≠ [] →
  evaluate_start_end_size_timestamps self now entity trade_day stock_detail w
  = (explicit_window (head trade_day)
       (head (latest_rows (Entity.id entity) 1 (session w)))
       (merge_sort Z.le cached),
     set_timestamps_map (insert (Entity.id entity) (merge_sort Z.le cached)) w).
Proof.
  intros Hcache Hne.
  unfold evaluate_start_end_size_timestamps. rewrite cls_timestamps.
  unfold evaluate_timestamps. run. rewrite Hcache.
  destruct cached as [|c cs]; [done|].
  destruct (merge_sort Z.le (c :: cs)) as [|s ss] eqn:Hsort;
    [by apply merge_sort_nil_inv in Hsort|].
  unfold get_latest_saved_record. rewrite cls_timestamps.
  rewrite get_latest_saved_record_time_series_eq. simpl.
  rewrite trade_at_0. unfold explicit_window.
  destruct (head (latest_rows _ _ _)) as [r|]; [|done].
  destruct (Domain.timestamp r) as [latest|]; [|done].
  by destruct (timestamps_from latest (s :: ss)).
Qed.

(** A cycle that finds no cached list, or an empty one: the list is
    built by [init_timestamps], cut to the range and stored. *)
Lemma evaluate_timestamps_miss now entity trade_day stock_detail w :
  security_timestamps_map w !! Entity.id entity = None
  ∨ security_timestamps_map w !! Entity.id entity = Some [] →
  evaluate_start_end_size_timestamps self now entity trade_day stock_detail w
  = match timestamps_in_range self entity with
    | [] =>
        (Ok (Window.mk None None (head trade_day) 0 (Some [])),
         set_timestamps_map (insert (Entity.id entity) []) w)
    | _ =>
        (explicit_window (head trade_day)
           (head (latest_rows (Entity.id entity) 1 (session w)))
           (merge_sort Z.le (timestamps_in_range self entity)),
         set_timestamps_map
           (insert (Entity.id entity) (merge_sort Z.le (timestamps_in_range self entity)))
           w)
    end.
Proof.
  intros Hcache.
  unfold evaluate_start_end_size_timestamps. rewrite cls_timestamps.
  unfold evaluate_timestamps. run.
  assert (Hinit :
    match Recorder.end_timestamp self with
    | Some e =>
        filter (λ t, t ≤ e)
          match Recorder.start_timestamp self with
          | Some s => timestamps_from s (init_timestamps entity)
          | None => init_timestamps entity
          end
    | None =>
        match Recorder.start_timestamp self with
        | Some s => timestamps_from s (init_timestamps entity)
        | None => init_timestamps entity
        end
    end = timestamps_in_range self entity) by done.
  destruct Hcache as [-> | ->]; rewrite Hinit;
    destruct (timestamps_in_range self entity) as [|c cs] eqn:Hrange;
    try (by rewrite trade_at_0);
    (destruct (merge_sort Z.le (c :: cs)) as [|s ss] eqn:Hsort;
       [by apply merge_sort_nil_inv in Hsort|]);
    unfold get_latest_saved_record; rewrite cls_timestamps;
    rewrite get_latest_saved_record_time_series_eq; simpl;
    rewrite trade_at_0; unfold explicit_window, set_timestamps_map; simpl;
    rewrite insert_insert_eq;
    (destruct (head (latest_rows _ _ _)) as [r|]; [|done]);
    (destruct (Domain.timestamp r) as [latest|]; [|done]);
    by destruct (timestamps_from latest (s :: ss)).
Qed.

End timestamps_window_facts.

Lemma set_timestamps_map_twice (entity_id : string) (l : list Z) (w : World) :
  set_timestamps_map (insert entity_id l) (set_timestamps_map (insert entity_id l) w)
  = set_timestamps_map (insert entity_id l) w.
Proof. unfold set_timestamps_map. simpl. by rewrite insert_insert_eq. Qed.

Lemma explicit_window_shape trade latest_record timestamps win :
  StronglySorted Z.le timestamps →
  explicit_window trade latest_record timestamps = Ok win →
  Window.trade win = trade
  ∧ match Window.timestamps win with
    | Some l =>
        StronglySorted Z.le l
        ∧ l ⊆ timestamps
        ∧ Window.size win = Z.of_nat (length l)
        ∧ Window.start win = head l
        ∧ Window.end_ win = last l
    | None => Window.size win = 0 ∧ Window.start win = None ∧ Window.end_ win = None
    end.
Proof.
  intros Hs. unfold explicit_window.
  destruct latest_record as [r|].
  - destruct (Domain.timestamp r) as [latest|]; [|done].
    destruct (timestamps_from latest timestamps) as [|t ts] eqn:Hf.
    + intros [= <-]. done.
    + intros [= <-]. simpl. split; [done|]. rewrite <- Hf.
      split; [by apply strongly_sorted_filter|].
      split; [|by rewrite Hf].
      intros x Hx. by apply list_elem_of_filter in Hx as [_ Hx].
  - intros [= <-]. simpl. done.
Qed.

(** X5. First cycle of the explicit-timestamp policy for an entity with no
    saved record: the timestamps of [init_timestamps] that lie in the
    configured range are sorted, memoized and returned whole; [size] is
    their number, the window runs from the first to the last. *)
Theorem timestamps_first_cycle `{Externals} (self : Recorder.t) (now : Z)
    (entity : Entity.t) (trade_day : list Z) (stock_detail : gmap string Z)
    (w : World) :
  Recorder.cls self = TimestampsDataRecorder →
  security_timestamps_map w !! Entity.id entity = None
  ∨ security_timestamps_map w !! Entity.id entity = Some [] →
  rows_of (Entity.id entity) (session w) = [] →
  let l := merge_sort Z.le (timestamps_in_range self entity) in
  evaluate_start_end_size_timestamps self now entity trade_day stock_detail w
    = (Ok (Window.mk (head l) (last l) (head trade_day) (Z.of_nat (length l)) (Some l)),
       set_timestamps_map (insert (Entity.id entity) l) w)
  ∧ Sorted Z.le l
  ∧ ∀ t, t ∈ l ↔
         t ∈ init_timestamps entity
         ∧ (∀ s, Recorder.start_timestamp self = Some s → s ≤ t)
         ∧ (∀ e, Recorder.end_timestamp self = Some e → t ≤ e).
Proof.
  intros Hcls Hcache Hnone l. split; [|split].
  - rewrite (evaluate_timestamps_miss self Hcls now entity trade_day stock_detail w Hcache).
    rewrite latest_rows_none by done. unfold l.
    destruct (timestamps_in_range self entity) as [|c cs] eqn:Hrange; [done|].
    done.
  - apply Sorted_merge_sort. apply _.
  - intros t. unfold l. rewrite merge_sort_Permutation.
    unfold timestamps_in_range, timestamps_from.
    destruct (Recorder.start_timestamp self) as [s|],
             (Recorder.end_timestamp self) as [e|];
      rewrite ?list_elem_of_filter; split.
    + intros (He & Hs & Hin). split; [done|]. split; intros ? [= <-]; done.
    + intros (Hin & Hs & He). split; [by apply He|]. split; [by apply Hs|done].
    + intros (Hs & Hin). split; [done|]. split; [intros ? [= <-]; done|done].
    + intros (Hin & Hs & _). split; [by apply Hs|done].
    + intros (He & Hin). split; [done|]. split; [done|intros ? [= <-]; done].
    + intros (Hin & _ & He). split; [by apply He|done].
    + intros Hin. done.
    + intros (Hin & _). done.
Qed.

Lemma timestamps_first_cycle_witness :
  let self := Recorder.mk TimestampsDataRecorder 10 false 5 2000 false "add"
                (Some 15) (Some 40) (Some 0) (Some 0) LEVEL_1DAY (24 * 60) true in
  let w := Demo.world [] in
  let l := merge_sort Z.le (@timestamps_in_range Feed.ext self Demo.stock) in
  @evaluate_start_end_size_timestamps Feed.ext self 60 Demo.stock [] ∅ w
    = (Ok (Window.mk (head l) (last l) (head []) (Z.of_nat (length l)) (Some l)),
       set_timestamps_map (insert (Entity.id Demo.stock) l) w)
  ∧ Sorted Z.le l
  ∧ ∀ t, t ∈ l ↔
         t ∈ @init_timestamps Feed.ext Demo.stock
         ∧ (∀ s, Recorder.start_timestamp self = Some s → s ≤ t)
         ∧ (∀ e, Recorder.end_timestamp self = Some e → t ≤ e).
Proof.
  intros self w.
  apply (@timestamps_first_cycle Feed.ext self 60 Demo.stock [] ∅ w).
  - reflexivity.
  - left. reflexivity.
  - reflexivity.
Defined.

(** X6. A cycle of the explicit-timestamp policy that returns is repeatable:
    run again from the surroundings it left, it returns the same window
    and changes nothing more. [init_timestamps] is asked again only
    while the memoized list is empty. *)
Theorem timestamps_cycle_repeatable `{Externals} (self : Recorder.t) (now : Z)
    (entity : Entity.t) (trade_day : list Z) (stock_detail : gmap string Z)
    (w w1 : World) (win : Window.t) :
  Recorder.cls self = TimestampsDataRecorder →
  evaluate_start_end_size_timestamps self now entity trade_day stock_detail w
    = (Ok win, w1) →
  evaluate_start_end_size_timestamps self now entity trade_day stock_detail w1
    = (Ok win, w1).
Proof.
  intros Hcls Hfirst.
  assert (Hhit : ∀ cached w0,
    cached ≠ [] →
    (explicit_window (head trade_day)
       (head (latest_rows (Entity.id entity) 1 (session w0)))
       (merge_sort Z.le cached),
     set_timestamps_map (insert (Entity.id entity) (merge_sort Z.le cached)) w0)
    = (Ok win, w1) →
    evaluate_start_end_size_timestamps self now entity trade_day stock_detail w1
    = (Ok win, w1)).
  { intros cached w0 Hne [= Hwin <-].
    rewrite (evaluate_timestamps_hit self Hcls now entity trade_day stock_detail _
               (merge_sort Z.le cached)).
    - rewrite merge_sort_idempotent, set_timestamps_map_twice. simpl. by rewrite Hwin.
    - simpl. apply lookup_insert_eq.
    - intros Hnil. by apply merge_sort_nil_inv in Hnil. }
  destruct (security_timestamps_map w !! Entity.id entity) as [[|c cs]|] eqn:Hcache.
  - rewrite (evaluate_timestamps_miss self Hcls now entity trade_day stock_detail w)
      in Hfirst by auto.
    destruct (timestamps_in_range self entity) as [|r rs] eqn:Hrange.
    + injection Hfirst as <- <-.
      rewrite (evaluate_timestamps_miss self Hcls);
        [|right; simpl; apply lookup_insert_eq].
      by rewrite Hrange, set_timestamps_map_twice.
    + by apply (Hhit (r :: rs) w).
  - rewrite (evaluate_timestamps_hit self Hcls now entity trade_day stock_detail w
               (c :: cs)) in Hfirst by done.
    by apply (Hhit (c :: cs) w).
  - rewrite (evaluate_timestamps_miss self Hcls now entity trade_day stock_detail w)
      in Hfirst by auto.
    destruct (timestamps_in_range self entity) as [|r rs] eqn:Hrange.
    + injection Hfirst as <- <-.
      rewrite (evaluate_timestamps_miss self Hcls);
        [|right; simpl; apply lookup_insert_eq].
      by rewrite Hrange, set_timestamps_map_twice.
    + by apply (Hhit (r :: rs) w).
Qed.

Lemma timestamps_cycle_repeatable_witness :
  let self := Recorder.mk TimestampsDataRecorder 10 false 5 2000 false "add"
                (Some 15) (Some 40) (Some 0) (Some 0) LEVEL_1DAY (24 * 60) true in
  let w := Demo.world [Demo.row "stock_sz_000001_20" 20] in
  let w1 := set_timestamps_map (insert "stock_sz_000001" [20; 30]) w in
  let win := Window.mk (Some 20) (Some 30) None 2 (Some [20; 30]) in
  @evaluate_start_end_size_timestamps Feed.ext self 60 Demo.stock [] ∅ w1 = (Ok win, w1).
Proof.
  intros self w w1 win.
  apply (@timestamps_cycle_repeatable Feed.ext self 60 Demo.stock [] ∅ w w1 win).
  - reflexivity.
  - vm_compute. reflexivity.
Defined.

(** X7. Whatever window the explicit-timestamp policy returns, its explicit
    timestamps are in ascending order, [size] is their number and the
    window runs from the first to the last of them; with no list
    returned the size is 0. *)
Theorem timestamps_window_shape `{Externals} (self : Recorder.t) (now : Z)
    (entity : Entity.t) (trade_day : list Z) (stock_detail : gmap string Z)
    (w w1 : World) (win : Window.t) :
  Recorder.cls self = TimestampsDataRecorder →
  evaluate_start_end_size_timestamps self now entity trade_day stock_detail w
    = (Ok win, w1) →
  match Window.timestamps win with
  | Some l =>
      Sorted Z.le l
      ∧ Window.size win = Z.of_nat (length l)
      ∧ Window.start win = head l
      ∧ Window.end_ win = last l
      ∧ ∀ t a b, t ∈ l → Window.start win = Some a → Window.end_ win = Some b →
                 a ≤ t ≤ b
  | None => Window.size win = 0 ∧ Window.start win = None ∧ Window.end_ win = None
  end.
Proof.
  intros Hcls Heval.
  assert (Hshape : ∀ cached,
    explicit_window (head trade_day)
      (head (latest_rows (Entity.id entity) 1 (session w)))
      (merge_sort Z.le cached) = Ok win →
    match Window.timestamps win with
    | Some l =>
        Sorted Z.le l
        ∧ Window.size win = Z.of_nat (length l)
        ∧ Window.start win = head l
        ∧ Window.end_ win = last l
        ∧ ∀ t a b, t ∈ l → Window.start win = Some a → Window.end_ win = Some b →
                   a ≤ t ≤ b
    | None => Window.size win = 0 ∧ Window.start win = None ∧ Window.end_ win = None
    end).
  { intros cached Hwin.
    apply explicit_window_shape in Hwin as [_ Hwin];
      [|apply StronglySorted_merge_sort; apply _].
    destruct (Window.timestamps win) as [l|]; [|done].
    destruct Hwin as (Hs & _ & Hsize & Hstart & Hend).
    split; [by apply StronglySorted_Sorted|]. repeat (split; [done|]).
    intros t a b Ht Ha Hb. rewrite Hstart in Ha. rewrite Hend in Hb.
    apply head_Some in Ha as [l' ->].
    destruct (strongly_sorted_head _ _ _ _ Hs Ht) as [Heq1|Hle1];
      destruct (strongly_sorted_last _ _ _ _ Hs Ht Hb) as [Heq2|Hle2]; lia. }
  destruct (security_timestamps_map w !! Entity.id entity) as [[|c cs]|] eqn:Hcache.
  - rewrite (evaluate_timestamps_miss self Hcls now entity trade_day stock_detail w)
      in Heval by auto.
    destruct (timestamps_in_range self entity) as [|r rs] eqn:Hrange.
    + injection Heval as <- _. simpl. split; [constructor|].
      do 3 (split; [done|]). intros t a b Ht. by apply elem_of_nil in Ht.
    + injection Heval as Hwin _. by apply (Hshape (r :: rs)).
  - rewrite (evaluate_timestamps_hit self Hcls now entity trade_day stock_detail w
               (c :: cs)) in Heval by done.
    injection Heval as Hwin _. by apply (Hshape (c :: cs)).
  - rewrite (evaluate_timestamps_miss self Hcls now entity trade_day stock_detail w)
      in Heval by auto.
    destruct (timestamps_in_range self entity) as [|r rs] eqn:Hrange.
    + injection Heval as <- _. simpl. split; [constructor|].
      do 3 (split; [done|]). intros t a b Ht. by apply elem_of_nil in Ht.
    + injection Heval as Hwin _. by apply (Hshape (r :: rs)).
Qed.

Lemma timestamps_window_shape_witness :
  let self := Recorder.mk TimestampsDataRecorder 10 false 5 2000 false "add"
                (Some 15) (Some 40) (Some 0) (Some 0) LEVEL_1DAY (24 * 60) true in
  let w := Demo.world [Demo.row "stock_sz_000001_20" 20] in
  let w1 := set_timestamps_map (insert "stock_sz_000001" [20; 30]) w in
  let win := Window.mk (Some 20) (Some 30) None 2 (Some [20; 30]) in
  match Window.timestamps win with
  | Some l =>
      Sorted Z.le l
      ∧ Window.size win = Z.of_nat (length l)
      ∧ Window.start win = head l
      ∧ Window.end_ win = last l
      ∧ ∀ t a b, t ∈ l → Window.start win = Some a → Window.end_ win = Some b →
                 a ≤ t ≤ b
  | None => Window.size win = 0 ∧ Window.start win = None ∧ Window.end_ win = None
  end.
Proof.
  intros self w w1 win.
  apply (@timestamps_window_shape Feed.ext self 60 Demo.stock [] ∅ w w1 win).
  - reflexivity.
  - vm_compute. reflexivity.
Defined.

(** ** What a batch writes *)


Section batches.
Context {ext : Externals}.
Variable self : Recorder.t.
Variable entity : Entity.t.

Local Abbreviation loop := (process_duplicate_loop self entity).

(** A payload without its time field stops the batch with KeyError. *)
Lemma generate_domain_key_error raw w :
  raw !! original_time_field = None →
  generate_domain self entity (IsRaw raw) w = (Raise KeyError, w).
Proof.
  intros Hnone. unfold generate_domain, generate_domain_id, dict_get.
  rewrite Hnone. done.
Qed.

(** Ready domain objects with ids of their own join the list as they
    are. *)
Lemma loop_domains ds : ∀ ad dl w,
  NoDup (Domain.id <$> ds) →
  (∀ x, x ∈ dl → Domain.id x ∉ Domain.id <$> ds) →
  loop (IsDomain <$> ds) ad dl w
  = (Ok (Completed (if ds is [] then ad else false) (dl ++ ds)), w).
Proof.
  induction ds as [|d ds IH]; intros ad dl w Hnodup Hfresh.
  - simpl. by rewrite app_nil_r.
  - rewrite fmap_cons in Hnodup. apply NoDup_cons in Hnodup as [Hnotin Hnodup].
    rewrite fmap_cons, loop_cons.
    change (generate_domain self entity (IsDomain d) w) with (Ok (true, Some d), w).
    cbv beta match.
    assert (Hnone : filter (λ x, Domain.id x = Domain.id d) dl = []).
    { destruct (filter _ dl) as [|x xs] eqn:Hf; [done|].
      assert (Hx : x ∈ filter (λ x, Domain.id x = Domain.id d) dl)
        by (rewrite Hf; by left).
      apply list_elem_of_filter in Hx as [Hxid Hxin].
      exfalso. apply (Hfresh x Hxin). rewrite Hxid, fmap_cons. by left. }
    rewrite Hnone, IH; [|done|].
    + rewrite <- app_assoc. simpl. by destruct ds.
    + intros x Hx. apply elem_of_app in Hx as [Hx|Hx].
      * intros Hin. apply (Hfresh x Hx). rewrite fmap_cons. by right.
      * by apply list_elem_of_singleton in Hx as ->.
Qed.

Lemma skipped_log_only_logged raws : ∀ w,
  only_logged w (skipped_log entity raws w)
  ∧ logger (skipped_log entity raws w)
    = logger w ++ ((λ raw, InfoIgnoreSaved (derived_id entity raw)) <$> raws).
Proof.
  induction raws as [|raw raws IH]; intros w; simpl.
  - by rewrite app_nil_r.
  - destruct (IH (add_log (InfoIgnoreSaved (derived_id entity raw)) w))
      as ((Hs & Hc & Hu) & Hl).
    unfold skipped_log in *. rewrite Hl. simpl. rewrite <- app_assoc.
    repeat split; done.
Qed.

(** With force-update off, saved payloads leave the list as it is. *)
Lemma loop_all_saved raws : ∀ ad dl w,
  Recorder.force_update self = false →
  Forall (λ raw, is_Some (raw !! original_time_field)) raws →
  Forall (λ raw, rows_by_id (Entity.id entity) (derived_id entity raw) (session w) ≠ [])
         raws →
  loop (IsRaw <$> raws) ad dl w = (Ok (Completed ad dl), skipped_log entity raws w).
Proof.
  induction raws as [|raw raws IH]; intros ad dl w Hforce Hwf Hsaved; [done|].
  apply Forall_cons in Hwf as [[v Hv] Hwf].
  apply Forall_cons in Hsaved as [Hraw Hsaved].
  rewrite fmap_cons, loop_cons, (generate_domain_raw self entity raw v w Hv).
  destruct (rows_by_id _ _ (session w)) as [|item items] eqn:Hrows; [done|].
  rewrite Hforce. simpl. apply IH; done.
Qed.

Lemma upsert_keeps (d x : Domain.t) (rows : list Domain.t) :
  x ∈ rows → Domain.id x ≠ Domain.id d → x ∈ upsert d rows.
Proof.
  intros Hx Hne. unfold upsert. apply elem_of_app. left.
  by apply list_elem_of_filter.
Qed.

Lemma upsert_all_keeps dl : ∀ rows x,
  x ∈ rows → (∀ d, d ∈ dl → Domain.id d ≠ Domain.id x) →
  x ∈ foldl (λ rs d, upsert d rs) rows dl.
Proof.
  induction dl as [|d dl IH]; intros rows x Hx Hne; [done|].
  simpl. apply IH.
  - apply upsert_keeps; [done|]. intros Heq. apply (Hne d); [by left|done].
  - intros d' Hd'. apply Hne. by right.
Qed.

(** Records with ids of their own that no row has are added behind the
    rows, in their order. *)
Lemma upsert_all_new dl : ∀ rows,
  NoDup (Domain.id <$> dl) →
  (∀ r, r ∈ rows → Domain.id r ∉ Domain.id <$> dl) →
  foldl (λ rs d, upsert d rs) rows dl = rows ++ dl.
Proof.
  induction dl as [|d dl IH]; intros rows Hnodup Hfresh; simpl.
  - by rewrite app_nil_r.
  - rewrite fmap_cons in Hnodup. apply NoDup_cons in Hnodup as [Hnotin Hnodup].
    assert (Hup : upsert d rows = rows ++ [d]).
    { unfold upsert. f_equal.
      assert (Hall : ∀ r, r ∈ rows → Domain.id r ≠ Domain.id d).
      { intros r Hr Heq. apply (Hfresh r Hr). rewrite Heq, fmap_cons. by left. }
      clear Hfresh. induction rows as [|r rows IHrows]; [done|].
      rewrite filter_cons_True by (apply Hall; by left).
      f_equal. apply IHrows. intros r' Hr'. apply Hall. by right. }
    rewrite Hup, IH; [by rewrite <- app_assoc|done|].
    intros r Hr. apply elem_of_app in Hr as [Hr|Hr].
    + intros Hin. apply (Hfresh r Hr). rewrite fmap_cons. by right.
    + by apply list_elem_of_singleton in Hr as ->.
Qed.

(** What is written can be read: every record of a list with ids of
    its own is in the session after the upsert. *)
Lemma upsert_all_found dl : ∀ rows d,
  NoDup (Domain.id <$> dl) → d ∈ dl →
  d ∈ foldl (λ rs d, upsert d rs) rows dl.
Proof.
  induction dl as [|d0 dl IH]; intros rows d Hnodup Hd; [by apply elem_of_nil in Hd|].
  rewrite fmap_cons in Hnodup. apply NoDup_cons in Hnodup as [Hnotin Hnodup].
  simpl. apply elem_of_cons in Hd as [->|Hd].
  - apply upsert_all_keeps.
    + unfold upsert. apply elem_of_app. right. by left.
    + intros d' Hd' Heq. apply Hnotin. rewrite <- Heq. by apply list_elem_of_fmap_2.
  - by apply IH.
Qed.

Hypothesis fill_keeps_id :
  ∀ d raw, Domain.id (fill_domain_from_dict d raw) = Domain.id d.

Lemma built_record_id raw : Domain.id (built_record self entity raw) = derived_id entity raw.
Proof. unfold built_record. by rewrite fill_keeps_id. Qed.

(** New payloads with derived ids of their own all join the list. *)
Lemma loop_all_new raws : ∀ ad dl w,
  Forall (λ raw, is_Some (raw !! original_time_field)) raws →
  Forall (λ raw, rows_by_id (Entity.id entity) (derived_id entity raw) (session w) = [])
         raws →
  NoDup (derived_id entity <$> raws) →
  (∀ x, x ∈ dl → Domain.id x ∉ derived_id entity <$> raws) →
  ∃ w',
    loop (IsRaw <$> raws) ad dl w
      = (Ok (Completed (if raws is [] then ad else false)
               (dl ++ (built_record self entity <$> raws))), w')
    ∧ only_logged w w'.
Proof.
  induction raws as [|raw raws IH]; intros ad dl w Hwf Hnew Hnodup Hfresh.
  - exists w. simpl. by rewrite app_nil_r.
  - apply Forall_cons in Hwf as [[v Hv] Hwf].
    apply Forall_cons in Hnew as [Hraw Hnew].
    rewrite fmap_cons in Hnodup. apply NoDup_cons in Hnodup as [Hnotin Hnodup].
    pose proof (generate_domain_only_logged self entity (IsRaw raw) w) as Hlog.
    rewrite fmap_cons, loop_cons.
    rewrite (generate_domain_raw self entity raw v w Hv), Hraw in *.
    fold (built_record self entity raw). simpl in Hlog.
    set (w1 := match to_pd_timestamp v with Ok _ => w | Raise _ => _ end) in *.
    destruct Hlog as (Hs1 & Hc1 & Hu1).
    assert (Hnone : filter (λ x, Domain.id x = Domain.id (built_record self entity raw))
                           dl = []).
    { destruct (filter _ dl) as [|x xs] eqn:Hf; [done|].
      assert (Hx : x ∈ filter (λ x, Domain.id x
                                  = Domain.id (built_record self entity raw)) dl)
        by (rewrite Hf; by left).
      apply list_elem_of_filter in Hx as [Hxid Hxin].
      exfalso. apply (Hfresh x Hxin). rewrite Hxid, built_record_id, fmap_cons. by left. }
    rewrite Hnone.
    destruct (IH false (dl ++ [built_record self entity raw]) w1 Hwf)
      as (w' & Hloop & Hs & Hc & Hu).
    + by rewrite Hs1.
    + done.
    + intros x Hx. apply elem_of_app in Hx as [Hx|Hx].
      * intros Hin. apply (Hfresh x Hx). rewrite fmap_cons. by right.
      * apply list_elem_of_singleton in Hx as ->. by rewrite built_record_id.
    + exists w'. split.
      * rewrite Hloop. rewrite <- app_assoc. simpl. by destruct raws.
      * unfold only_logged. rewrite Hs, Hc, Hu. done.
Qed.

End batches.

(** X9. With force-update off, a non-empty batch of raw payloads whose
    derived ids are all saved writes nothing: each payload is skipped
    with a log line, the count of duplicates is logged, the batch is
    all-duplicate and the entity is not reported finished by it. *)
Theorem saved_batch_writes_nothing `{Externals} (self : Recorder.t) (entity : Entity.t)
    (raws : list (gmap string string)) (w : World) :
  Recorder.force_update self = false →
  raws ≠ [] →
  Forall (λ raw, is_Some (raw !! original_time_field)) raws →
  Forall (λ raw, rows_by_id (Entity.id entity) (derived_id entity raw) (session w) ≠ [])
         raws →
  ∃ w',
    process_duplicate self (IsRaw <$> raws) entity w = (Ok (false, true), w')
    ∧ session w' = session w
    ∧ session_calls w' = session_calls w
    ∧ logger w'
      = logger w ++ ((λ raw, InfoIgnoreSaved (derived_id entity raw)) <$> raws)
                 ++ [InfoJustDuplicated (length raws)].
Proof.
  intros Hforce Hne Hwf Hsaved.
  rewrite process_duplicate_eq by (by destruct raws).
  rewrite (loop_all_saved self entity raws true [] w Hforce Hwf Hsaved).
  destruct (skipped_log_only_logged entity raws w) as ((Hs & Hc & _) & Hl).
  eexists. split; [reflexivity|]. simpl.
  rewrite Hs, Hc, Hl, length_fmap, <- app_assoc. done.
Qed.

Lemma saved_batch_writes_nothing_witness :
  let raws := [Demo.payload "3" "1.0"; Demo.payload "4" "2.0"] in
  let w := Demo.world [Demo.row "stock_sz_000001_3" (3 * Timestamp.ns_per_day);
                       Demo.row "stock_sz_000001_4" (4 * Timestamp.ns_per_day)] in
  ∃ w',
    process_duplicate Demo.catch_up (IsRaw <$> raws) Demo.stock w = (Ok (false, true), w')
    ∧ session w' = session w
    ∧ session_calls w' = session_calls w
    ∧ logger w'
      = logger w ++ ((λ raw, InfoIgnoreSaved (derived_id Demo.stock raw)) <$> raws)
                 ++ [InfoJustDuplicated (length raws)].
Proof.
  intros raws w.
  apply (saved_batch_writes_nothing Demo.catch_up Demo.stock raws w).
  - reflexivity.
  - discriminate.
  - repeat constructor; vm_compute; eauto.
  - repeat constructor; vm_compute; discriminate.
Defined.

(** X10. What a cycle writes, the next cycle finds. With force-update off, a
    batch of new raw payloads with derived ids of their own is written
    whole; processed again from the session this leaves, the same batch
    is all-duplicate and writes nothing more. *)
Theorem written_batch_is_duplicate_next `{Externals} (self : Recorder.t)
    (entity : Entity.t) (raws : list (gmap string string)) (w : World) :
  (∀ d raw, Domain.id (fill_domain_from_dict d raw) = Domain.id d) →
  (∀ d raw, Domain.entity_id (fill_domain_from_dict d raw) = Domain.entity_id d) →
  Recorder.force_update self = false →
  raws ≠ [] →
  Forall (λ raw, is_Some (raw !! original_time_field)) raws →
  Forall (λ raw, rows_by_id (Entity.id entity) (derived_id entity raw) (session w) = [])
         raws →
  NoDup (derived_id entity <$> raws) →
  ∃ w1 w2,
    process_duplicate self (IsRaw <$> raws) entity w = (Ok (false, false), w1)
    ∧ session_calls w1
      = session_calls w ++ [AddAll (built_record self entity <$> raws); Commit]
    ∧ process_duplicate self (IsRaw <$> raws) entity w1 = (Ok (false, true), w2)
    ∧ session_calls w2 = session_calls w1
    ∧ session w2 = session w1.
Proof.
  intros Hid Heid Hforce Hne Hwf Hnew Hnodup.
  destruct (loop_all_new self entity Hid raws true [] w Hwf Hnew Hnodup)
    as (w0 & Hloop & Hs0 & Hc0 & _).
  { intros x Hx. by apply elem_of_nil in Hx. }
  set (items := built_record self entity <$> raws) in *.
  assert (Hitems : items ≠ []) by (unfold items; by destruct raws).
  destruct (persist_effect entity items w0 Hitems) as (w1 & Hp & Hc1 & Hs1).
  assert (Hfirst : process_duplicate self (IsRaw <$> raws) entity w
                   = (Ok (false, false), w1)).
  { rewrite process_duplicate_eq by (by destruct raws).
    rewrite Hloop. simpl. rewrite Hp.
    destruct raws; [done|]. by destruct items. }
  assert (Hsaved : Forall (λ raw, rows_by_id (Entity.id entity) (derived_id entity raw)
                                    (session w1) ≠ []) raws).
  { apply Forall_forall. intros raw Hraw.
    assert (Hin : built_record self entity raw ∈ session w1).
    { rewrite Hs1. apply upsert_all_found.
      - unfold items. rewrite <- list_fmap_compose.
        erewrite list_fmap_ext; [exact Hnodup|].
        intros i x _. simpl. by apply built_record_id.
      - by apply list_elem_of_fmap_2. }
    intros Hnil.
    apply (filter_nil_not_elem_of _ _ (built_record self entity raw) Hnil); [|done].
    split.
    - unfold built_record. by rewrite Heid.
    - by apply built_record_id. }
  destruct (loop_all_saved self entity raws true [] w1 Hforce Hwf Hsaved) as [].
  destruct (skipped_log_only_logged entity raws w1) as ((Hs2 & Hc2 & _) & _).
  exists w1. eexists. split; [done|]. split; [by rewrite Hc1, Hc0|].
  rewrite process_duplicate_eq by (by destruct raws).
  rewrite (loop_all_saved self entity raws true [] w1 Hforce Hwf Hsaved).
  split; [reflexivity|]. simpl. by rewrite Hs2, Hc2.
Qed.

Lemma written_batch_is_duplicate_next_witness :
  let raws := [Demo.payload "3" "1.0"; Demo.payload "4" "2.0"] in
  let w := Demo.world [] in
  ∃ w1 w2,
    process_duplicate Demo.catch_up (IsRaw <$> raws) Demo.stock w = (Ok (false, false), w1)
    ∧ session_calls w1
      = session_calls w
        ++ [AddAll (built_record Demo.catch_up Demo.stock <$> raws); Commit]
    ∧ process_duplicate Demo.catch_up (IsRaw <$> raws) Demo.stock w1
      = (Ok (false, true), w2)
    ∧ session_calls w2 = session_calls w1
    ∧ session w2 = session w1.
Proof.
  intros raws w.
  apply (written_batch_is_duplicate_next Demo.catch_up Demo.stock raws w).
  - reflexivity.
  - reflexivity.
  - reflexivity.
  - discriminate.
  - repeat constructor; vm_compute; eauto.
  - repeat constructor.
  - vm_compute. repeat constructor; rewrite ?elem_of_cons, ?elem_of_nil;
      intros Hin; repeat destruct Hin as [Hin|Hin]; try discriminate; done.
Defined.

(** X11. Ready domain objects pass through: a non-empty batch of them, with
    ids of their own that no row of the session has, is written as it
    is, in its order: the objects are handed to [add_all] and committed,
    they are the new rows of the session, behind those it had, and the
    batch is not all-duplicate. *)
Theorem domain_objects_pass_through `{Externals} (self : Recorder.t)
    (entity : Entity.t) (ds : list Domain.t) (w : World) :
  ds ≠ [] →
  NoDup (Domain.id <$> ds) →
  (∀ r, r ∈ session w → Domain.id r ∉ Domain.id <$> ds) →
  ∃ w',
    process_duplicate self (IsDomain <$> ds) entity w = (Ok (false, false), w')
    ∧ session_calls w' = session_calls w ++ [AddAll ds; Commit]
    ∧ session w' = session w ++ ds.
Proof.
  intros Hne Hnodup Hfresh.
  rewrite process_duplicate_eq by (by destruct ds).
  rewrite (loop_domains self entity ds true [] w Hnodup)
    by (intros x Hx; by apply elem_of_nil in Hx).
  destruct (persist_effect entity ds w Hne) as (w' & Hp & Hc & Hs).
  simpl. rewrite Hp. exists w'.
  split; [by destruct ds|]. split; [done|].
  rewrite Hs. by apply upsert_all_new.
Qed.

Lemma domain_objects_pass_through_witness :
  let ds := [Demo.row "stock_sz_000001_3" 3; Demo.row "stock_sz_000001_4" 4] in
  let w := Demo.world [Demo.row "stock_sz_000001_2" 2] in
  ∃ w',
    process_duplicate Demo.catch_up (IsDomain <$> ds) Demo.stock w = (Ok (false, false), w')
    ∧ session_calls w' = session_calls w ++ [AddAll ds; Commit]
    ∧ session w' = session w ++ ds.
Proof.
  intros ds w.
  apply (domain_objects_pass_through Demo.catch_up Demo.stock ds w).
  - discriminate.
  - vm_compute. repeat constructor; rewrite ?elem_of_cons, ?elem_of_nil;
      intros Hin; repeat destruct Hin as [Hin|Hin]; try discriminate; done.
  - intros r Hr. apply list_elem_of_singleton in Hr as ->.
    unfold ds. rewrite !fmap_cons, !elem_of_cons, fmap_nil, elem_of_nil.
    intros [Hin|[Hin|Hin]]; [discriminate|discriminate|done].
Defined.

(** X12. A raw payload without the original time field: in the mode ["add"]
    the batch ends in KeyError when it is reached; the records built
    before it are dropped with it: no [add_all] and no [commit] is
    issued, and with force-update off the rows of the session are as
    they were. *)
Theorem missing_time_field_drops_batch `{Externals} (self : Recorder.t)
    (entity : Entity.t) (pre post : list Original) (raw : gmap string string)
    (w : World) :
  Recorder.fix_duplicate_way self = "add" →
  Forall well_formed pre →
  raw !! original_time_field = None →
  ∃ w',
    process_duplicate self (pre ++ IsRaw raw :: post) entity w = (Raise KeyError, w')
    ∧ session_calls w' = session_calls w
    ∧ (Recorder.force_update self = false → session w' = session w).
Proof.
  intros Hadd Hpre Hnone.
  rewrite process_duplicate_eq by (by destruct pre).
  rewrite loop_app.
  pose proof (loop_frame self entity pre true [] w) as (Hs & Hc & _).
  destruct (loop_add_completed self entity pre true [] w Hadd Hpre)
    as (ad1 & items & w1 & Heq & _ & _).
  rewrite Heq in Hs, Hc |- *. simpl in Hs, Hc.
  rewrite loop_cons, generate_domain_key_error by done.
  by exists w1.
Qed.

Lemma missing_time_field_drops_batch_witness :
  ∃ w',
    process_duplicate Demo.catch_up
      ([IsRaw (Demo.payload "3" "1.0")] ++ IsRaw {[ "close" := "2.0" ]} :: [])
      Demo.stock (Demo.world [])
      = (Raise KeyError, w')
    ∧ session_calls w' = session_calls (Demo.world [])
    ∧ (Recorder.force_update Demo.catch_up = false → session w' = session (Demo.world [])).
Proof.
  apply (missing_time_field_drops_batch Demo.catch_up Demo.stock
           [IsRaw (Demo.payload "3" "1.0")] [] {[ "close" := "2.0" ]} (Demo.world [])).
  - reflexivity.
  - repeat constructor; vm_compute; eauto.
  - vm_compute. reflexivity.
Defined.

(** ** One cycle, and the run over the entities *)

Section cycle.
Context {ext : Externals}.
Variable self : Recorder.t.

Lemma generate_domain_fetches entity o w :
  fetches (generate_domain self entity o w).2 = fetches w.
Proof.
  destruct o as [d|raw]; [done|].
  destruct (raw !! original_time_field) as [v|] eqn:Hv.
  - rewrite (generate_domain_raw self entity raw v w Hv).
    destruct (rows_by_id _ _ _); [destruct (to_pd_timestamp v)|
                                  destruct (Recorder.force_update self)]; done.
  - by rewrite generate_domain_key_error.
Qed.

Lemma loop_fetches entity l : ∀ ad dl w,
  fetches (process_duplicate_loop self entity l ad dl w).2 = fetches w.
Proof.
  induction l as [|o rest IH]; intros ad dl w; [done|].
  rewrite loop_cons.
  pose proof (generate_domain_fetches entity o w) as Hf.
  destruct (generate_domain self entity o w) as [[[got item]|e] w1]; simpl in Hf; [|done].
  destruct item as [it|]; [destruct (filter _ dl); [|case_bool_decide]|];
    rewrite ?IH; done.
Qed.

Lemma process_duplicate_fetches entity l w :
  fetches (process_duplicate self l entity w).2 = fetches w.
Proof.
  destruct (decide (l = [])) as [->|Hne]; [done|].
  rewrite process_duplicate_eq by done.
  pose proof (loop_fetches entity l true [] w) as Hf.
  destruct (process_duplicate_loop self entity l true [] w)
    as [[[fin ad|ad dl]|e] w1]; simpl in *; try done.
  destruct dl as [|d dl]; [done|].
  unfold persist. destruct (time_interval _ _). by run.
Qed.

Lemma process_realtime_fetches entity ol ad now w :
  fetches (process_realtime self entity ol ad now w).2 = fetches w.
Proof.
  unfold process_realtime. run.
  destruct (bool_decide (ol = []) || ad); simpl; [|done].
  destruct (Recorder.real_time self); simpl; [|done].
  destruct (Recorder.close_hour self), (Recorder.close_minute self); simpl; try done.
  repeat case_bool_decide; done.
Qed.

(** [process_entity] after a window that asks for records. *)
Lemma process_entity_eq now entity trade_day stock_detail w win w1 :
  evaluate_start_end_size_timestamps self now entity trade_day stock_detail w
    = (Ok win, w1) →
  Window.size win ≠ 0 →
  process_entity self now entity trade_day stock_detail w
  = let original_list :=
      record (length (fetches w1)) entity (Window.start win) (Window.end_ win)
             (Window.size win) (Window.timestamps win) in
    match process_duplicate self original_list entity
            (add_fetch (mkFetch (Entity.id entity) (Window.start win) (Window.end_ win)
                                (Window.size win) (Window.timestamps win))
               (add_log (InfoRequest (Entity.id entity) (Window.size win)) w1)) with
    | (Ok (true, _), w3) => (Ok true, w3)
    | (Ok (false, all_duplicated), w3) =>
        match process_realtime self entity original_list all_duplicated now w3 with
        | (Ok true, w4) => (Ok true, w4)
        | (Ok false, w4) => (Ok false, add_log (InfoUpdateRecording (Entity.id entity)) w4)
        | (Raise e, w4) => (Raise e, w4)
        end
    | (Raise e, w3) => (Raise e, w3)
    end.
Proof.
  intros Heval Hsize. unfold process_entity. run. rewrite Heval.
  rewrite bool_decide_eq_false_2 by done.
  destruct (process_duplicate _ _ _ _) as [[[[|] ad]|e] w3]; try done.
  destruct (process_realtime _ _ _ _ _ _) as [[[|]|e] w4]; done.
Qed.

End cycle.

(** X13. A cycle asks the source at most once, and for exactly the window it
    evaluated: no call when the size is 0, one call otherwise, also when
    the batch then raises or collides. *)
Theorem one_fetch_per_cycle `{Externals} (self : Recorder.t) (now : Z)
    (entity : Entity.t) (trade_day : list Z) (stock_detail : gmap string Z)
    (w w1 : World) (win : Window.t) :
  evaluate_start_end_size_timestamps self now entity trade_day stock_detail w
    = (Ok win, w1) →
  fetches (process_entity self now entity trade_day stock_detail w).2
  = if bool_decide (Window.size win = 0) then fetches w1
    else fetches w1 ++ [mkFetch (Entity.id entity) (Window.start win) (Window.end_ win)
                                (Window.size win) (Window.timestamps win)].
Proof.
  intros Heval. case_bool_decide as Hsize.
  - unfold process_entity. run. rewrite Heval.
    by rewrite bool_decide_eq_true_2.
  - rewrite (process_entity_eq self now entity trade_day stock_detail w win w1 Heval Hsize).
    cbv zeta.
    match goal with |- context [process_duplicate self ?l entity ?w0] =>
      pose proof (process_duplicate_fetches self entity l w0) as Hf;
      destruct (process_duplicate self l entity w0) as [[[[|] ad]|e] w3];
      simpl in Hf; try done;
      pose proof (process_realtime_fetches self entity l ad now w3) as Hr;
      destruct (process_realtime self entity l ad now w3) as [[[|]|e] w4];
      simpl in *; congruence
    end.
Qed.

Lemma one_fetch_per_cycle_witness :
  let w := Demo.world [] in
  let win := Window.mk (Some 0) None None 100 None in
  fetches (@process_entity Feed.ext Demo.catch_up (Timestamp.make 100 10 0)
             Demo.stock [] ∅ w).2
  = if bool_decide (Window.size win = 0) then fetches w
    else fetches w ++ [mkFetch (Entity.id Demo.stock) (Window.start win)
                               (Window.end_ win) (Window.size win)
                               (Window.timestamps win)].
Proof.
  intros w win.
  apply (@one_fetch_per_cycle Feed.ext Demo.catch_up (Timestamp.make 100 10 0)
           Demo.stock [] ∅ w w win).
  vm_compute. reflexivity.
Defined.

Section catch_up.
Context {ext : Externals}.
Variable self : Recorder.t.
Hypothesis not_real_time : Recorder.real_time self = false.
Hypothesis nothing_to_fetch : ∀ n entity start end_ size timestamps,
  record n entity start end_ size timestamps = [].

(** With nothing to fetch and no real-time tracking a cycle never asks
    for another one. *)
Lemma catch_up_cycle now entity trade_day stock_detail w :
  ∃ w',
    (process_entity self now entity trade_day stock_detail w = (Ok true, w')
     ∨ ∃ e, process_entity self now entity trade_day stock_detail w = (Raise e, w'))
    ∧ session_calls w'
      = session_calls
          (evaluate_start_end_size_timestamps self now entity trade_day stock_detail w).2.
Proof.
  destruct (evaluate_start_end_size_timestamps self now entity trade_day stock_detail w)
    as [[win|e] w1] eqn:Heval.
  - destruct (decide (Window.size win = 0)) as [Hzero|Hsize].
    + exists w1. split; [left|done]. unfold process_entity. run. rewrite Heval.
      by rewrite bool_decide_eq_true_2.
    + rewrite (process_entity_eq self now entity trade_day stock_detail w win w1 Heval Hsize).
      cbv zeta. rewrite nothing_to_fetch. cbn [process_duplicate mret M_ret].
      rewrite process_realtime_catch_up by auto.
      eexists. split; [by left|done].
  - exists w1. split; [right; exists e|done].
    unfold process_entity. run. by rewrite Heval.
Qed.

Lemma catch_up_loop fuel clock entity trade_day stock_detail w :
  ∃ w', process_loop self (S fuel) clock entity trade_day stock_detail w = (Some tt, w').
Proof.
  destruct (catch_up_cycle (clock 0%nat) entity trade_day stock_detail w)
    as (w' & [Hok|[e Hraise]] & _).
  - exists w'. by apply process_loop_finished.
  - eexists. by apply process_loop_failed.
Qed.

Lemma catch_up_run fuel entities : ∀ clock trade_day stock_detail w pbar,
  ∃ w',
    run_entities self (S fuel) clock entities trade_day stock_detail w pbar
    = Some (w', (pbar + length entities)%nat).
Proof.
  induction entities as [|entity rest IH]; intros clock trade_day stock_detail w pbar.
  - exists w. simpl. by rewrite Nat.add_0_r.
  - destruct (catch_up_loop fuel (clock 0%nat) entity trade_day stock_detail w)
      as (w1 & Hloop).
    destruct (IH (λ i, clock (S i)) trade_day stock_detail w1 (S pbar)) as (w' & Hrun).
    exists w'. cbn [run_entities]. rewrite Hloop, Hrun.
    do 2 f_equal. simpl. lia.
Qed.

End catch_up.

(** X14. A catch-up recorder facing a source with nothing to give: a cycle
    that asks for records fetches once, gets nothing, writes nothing and
    finishes the entity. *)
Theorem empty_fetch_finishes_entity `{Externals} (self : Recorder.t) (now : Z)
    (entity : Entity.t) (trade_day : list Z) (stock_detail : gmap string Z)
    (w w1 : World) (win : Window.t) :
  Recorder.real_time self = false →
  evaluate_start_end_size_timestamps self now entity trade_day stock_detail w
    = (Ok win, w1) →
  Window.size win ≠ 0 →
  record (length (fetches w1)) entity (Window.start win) (Window.end_ win)
         (Window.size win) (Window.timestamps win) = [] →
  ∃ w',
    process_entity self now entity trade_day stock_detail w = (Ok true, w')
    ∧ session w' = session w1
    ∧ session_calls w' = session_calls w1
    ∧ fetches w'
      = fetches w1 ++ [mkFetch (Entity.id entity) (Window.start win) (Window.end_ win)
                               (Window.size win) (Window.timestamps win)].
Proof.
  intros Hrt Heval Hsize Hempty.
  rewrite (process_entity_eq self now entity trade_day stock_detail w win w1 Heval Hsize).
  cbv zeta. rewrite Hempty. cbn [process_duplicate mret M_ret].
  rewrite process_realtime_catch_up by auto.
  eexists. split; [reflexivity|]. done.
Qed.

Lemma empty_fetch_finishes_entity_witness :
  let w := Demo.world [] in
  let win := Window.mk (Some 0) None None 100 None in
  ∃ w',
    process_entity Demo.catch_up (Timestamp.make 100 10 0) Demo.stock [] ∅ w = (Ok true, w')
    ∧ session w' = session w
    ∧ session_calls w' = session_calls w
    ∧ fetches w'
      = fetches w ++ [mkFetch (Entity.id Demo.stock) (Window.start win) (Window.end_ win)
                              (Window.size win) (Window.timestamps win)].
Proof.
  intros w win.
  apply (empty_fetch_finishes_entity Demo.catch_up (Timestamp.make 100 10 0)
           Demo.stock [] ∅ w w win).
  - reflexivity.
  - vm_compute. reflexivity.
  - simpl. lia.
  - reflexivity.
Defined.

(** X15. A catch-up run against a source with nothing to give gets through
    every entity in one cycle each, finished or failed: it comes to its
    end and the bar has advanced by the number of entities. *)
Theorem catch_up_run_ends `{Externals} (self : Recorder.t) (fuel : nat)
    (clock : nat → nat → Z) (entities : list Entity.t) (trade_day : list Z)
    (stock_detail : gmap string Z) (w : World) (pbar : nat) :
  Recorder.real_time self = false →
  (∀ n entity start end_ size timestamps,
     record n entity start end_ size timestamps = []) →
  ∃ w',
    run_entities self (S fuel) clock entities trade_day stock_detail w pbar
    = Some (w', (pbar + length entities)%nat).
Proof. intros Hrt Hempty. by apply catch_up_run. Qed.

Lemma catch_up_run_ends_witness :
  ∃ w',
    run_entities Demo.catch_up 1 (λ _ _, Timestamp.make 100 10 0)
      [Demo.stock; Entity.mk "stock_sz_000002" "000002" None None] [] ∅
      (Demo.world []) 0
    = Some (w', (0 + length [Demo.stock; Entity.mk "stock_sz_000002" "000002" None None])%nat).
Proof.
  apply (catch_up_run_ends Demo.catch_up 0 (λ _ _, Timestamp.make 100 10 0)
           [Demo.stock; Entity.mk "stock_sz_000002" "000002" None None] [] ∅
           (Demo.world []) 0).
  - reflexivity.
  - reflexivity.
Defined.

(** X16. An entity whose cycle raises does not stop the run: the exception is
    logged, the bar is updated for it all the same, and the run goes on
    with the next entity. *)
Theorem failed_entity_is_counted `{Externals} (self : Recorder.t) (fuel : nat)
    (clock : nat → nat → Z) (entity : Entity.t) (rest : list Entity.t)
    (trade_day : list Z) (stock_detail : gmap string Z) (w w' : World)
    (pbar : nat) (e : exn) :
  process_entity self (clock 0%nat 0%nat) entity trade_day stock_detail w
    = (Raise e, w') →
  run_entities self (S fuel) clock (entity :: rest) trade_day stock_detail w pbar
  = run_entities self (S fuel) (λ i, clock (S i)) rest trade_day stock_detail
      (add_log (ExceptionRecording (Entity.id entity) e) w') (S pbar).
Proof.
  intros Hraise. cbn [run_entities].
  by rewrite (process_loop_failed self fuel (clock 0%nat) entity trade_day stock_detail
                w w' e Hraise).
Qed.

Lemma failed_entity_is_counted_witness :
  let self := Demo.recorder FixedCycleDataRecorder true false "ignore" None (Some 15) (Some 0) in
  let now := Timestamp.make 100 10 0 in
  let w := Demo.world [Demo.row "stock_sz_000001_99" (Timestamp.make 99 0 0)] in
  run_entities self 1 (λ _ _, now) [Demo.stock] [Timestamp.make 100 0 0] ∅ w 0
  = run_entities self 1 (λ _ _, now) [] [Timestamp.make 100 0 0] ∅
      (add_log (ExceptionRecording (Entity.id Demo.stock) IndexError) w) 1.
Proof.
  intros self now w.
  apply (failed_entity_is_counted self 0 (λ _ _, now) Demo.stock []
           [Timestamp.make 100 0 0] ∅ w w 0 IndexError).
  vm_compute. reflexivity.
Defined.

(** X17. The bar slot of a worker: for a pool of [workers] > 0 the slot of a
    worker process is between 1 and [workers] (slot 0 is kept for a
    process with no identity), and identities a multiple of [workers]
    apart share a slot; with [workers = 0] there is no slot. *)
Theorem worker_id_in_pool (p workers : Z) (rest : list Z) :
  0 < workers →
  ∃ k,
    worker_id (p :: rest) workers = Some k
    ∧ 1 ≤ k ≤ workers
    ∧ worker_id (p + workers :: rest) workers = Some k
    ∧ worker_id [] workers = Some 0
    ∧ worker_id (p :: rest) 0 = None.
Proof.
  intros Hpos. exists ((p - 1) mod workers + 1).
  unfold worker_id. rewrite bool_decide_eq_false_2 by lia.
  split; [done|]. split.
  - pose proof (Z.mod_pos_bound (p - 1) workers Hpos). lia.
  - split; [|done]. do 2 f_equal.
    replace (p + workers - 1) with (p - 1 + 1 * workers) by lia.
    by rewrite Z.mod_add by lia.
Qed.

Lemma worker_id_in_pool_witness :
  ∃ k,
    worker_id [7] 4 = Some k
    ∧ 1 ≤ k ≤ 4
    ∧ worker_id [7 + 4] 4 = Some k
    ∧ worker_id [] 4 = Some 0
    ∧ worker_id [7] 0 = None.
Proof. apply (worker_id_in_pool 7 4 []). lia. Defined.

(** ** More on completion, ids and persist *)

(** X18. With real-time tracking on and the close configured, an entity that
    [process_realtime] reports finished is at least five minutes past
    the close of the day; and when nothing new was fetched and [now] is
    within the closing hour, it is reported finished exactly when [now]
    is at least five minutes past the close. *)
Theorem real_time_completion `{Externals} (self : Recorder.t) (entity : Entity.t)
    (original_list : list Original) (all_duplicated : bool) (now : Z) (w : World)
    (close_hour close_minute : Z) :
  Recorder.real_time self = true →
  Recorder.close_hour self = Some close_hour →
  Recorder.close_minute self = Some close_minute →
  0 ≤ close_minute →
  ((process_realtime self entity original_list all_duplicated now w).1 = Ok true →
   past_close_by 5 close_hour close_minute now)
  ∧ (original_list = [] ∨ all_duplicated = true →
     Timestamp.hour now = close_hour →
     ((process_realtime self entity original_list all_duplicated now w).1 = Ok true
      ↔ past_close_by 5 close_hour close_minute now)).
Proof.
  intros Hrt Hh Hm Hcm. split.
  - by apply process_realtime_finished_past_close.
  - intros Hnone Hhour. by apply process_realtime_closing_hour.
Qed.

Lemma real_time_completion_witness :
  let self := Demo.recorder TimeSeriesDataRecorder false true "add" None (Some 15) (Some 0) in
  let now := Timestamp.make 100 15 6 in
  let w := Demo.world [] in
  ((process_realtime self Demo.stock [] true now w).1 = Ok true →
   past_close_by 5 15 0 now)
  ∧ (@nil Original = [] ∨ true = true →
     Timestamp.hour now = 15 →
     ((process_realtime self Demo.stock [] true now w).1 = Ok true
      ↔ past_close_by 5 15 0 now)).
Proof.
  intros self now w.
  apply (real_time_completion self Demo.stock [] true now w 15 0).
  - reflexivity.
  - reflexivity.
  - reflexivity.
  - lia.
Defined.

(** X19. [process_realtime] answers "not finished", and leaves everything as
    it is, whenever the cycle brought new data, and also whenever
    real-time tracking is on while the close hour or the close minute is
    not configured: such an entity is polled for ever. *)
Theorem process_realtime_keeps_polling `{Externals} (self : Recorder.t)
    (entity : Entity.t) (original_list : list Original) (all_duplicated : bool)
    (now : Z) (w : World) :
  (original_list ≠ [] ∧ all_duplicated = false)
  ∨ (Recorder.real_time self = true
     ∧ (Recorder.close_hour self = None ∨ Recorder.close_minute self = None)) →
  process_realtime self entity original_list all_duplicated now w = (Ok false, w).
Proof.
  intros Hcase. unfold process_realtime. run.
  destruct Hcase as [[Hne ->]|[Hrt Hclose]].
  - by rewrite bool_decide_eq_false_2.
  - rewrite Hrt. destruct (bool_decide (original_list = []) || all_duplicated); [|done].
    simpl. destruct Hclose as [-> | ->]; [done|].
    by destruct (Recorder.close_hour self).
Qed.

Lemma process_realtime_keeps_polling_witness :
  process_realtime
    (Demo.recorder TimeSeriesDataRecorder false true "add" None None (Some 0))
    Demo.stock [] true (Timestamp.make 100 23 59) (Demo.world [])
  = (Ok false, Demo.world []).
Proof.
  apply (process_realtime_keeps_polling
           (Demo.recorder TimeSeriesDataRecorder false true "add" None None (Some 0))
           Demo.stock [] true (Timestamp.make 100 23 59) (Demo.world [])).
  right. split; [reflexivity|]. by left.
Defined.

(** X20. The derived id: for payloads that have their time field it is built
    without touching anything, and two payloads of one entity get the
    same id exactly when their time values format to the same string. *)
Theorem derived_ids_coincide `{Externals} (entity : Entity.t)
    (raw1 raw2 : gmap string string) (v1 v2 : string) (w : World) :
  raw1 !! original_time_field = Some v1 →
  raw2 !! original_time_field = Some v2 →
  generate_domain_id entity raw1 w = (Ok (derived_id entity raw1), w)
  ∧ generate_domain_id entity raw2 w = (Ok (derived_id entity raw2), w)
  ∧ (derived_id entity raw1 = derived_id entity raw2 ↔ to_time_str v1 = to_time_str v2).
Proof.
  intros Hv1 Hv2. unfold generate_domain_id, dict_get, derived_id.
  rewrite Hv1, Hv2. simpl. split; [done|]. split; [done|]. split.
  - apply format_underscore_inj.
  - by intros ->.
Qed.

Lemma derived_ids_coincide_witness :
  let raw1 := Demo.payload "3" "1.0" in
  let raw2 := Demo.payload "3" "2.0" in
  let w := Demo.world [] in
  generate_domain_id Demo.stock raw1 w = (Ok (derived_id Demo.stock raw1), w)
  ∧ generate_domain_id Demo.stock raw2 w = (Ok (derived_id Demo.stock raw2), w)
  ∧ (derived_id Demo.stock raw1 = derived_id Demo.stock raw2
     ↔ to_time_str "3" = to_time_str "3").
Proof.
  intros raw1 raw2 w.
  apply (derived_ids_coincide Demo.stock raw1 raw2 "3" "3" w); reflexivity.
Defined.

(** X21. [persist] does not fail on records without a timestamp: when the
    first or the last record of a non-empty batch has none, the
    comparison is given up, the two timestamps are logged in the order of
    the list, and the batch is written all the same. *)
Theorem persist_without_timestamp (entity : Entity.t) (d0 d_last : Domain.t)
    (rest : list Domain.t) (w : World) :
  last (d0 :: rest) = Some d_last →
  Domain.timestamp d0 = None ∨ Domain.timestamp d_last = None →
  ∃ w',
    persist entity (d0 :: rest) w = (Ok tt, w')
    ∧ logger w' = logger w ++ [InfoPersist (Entity.id entity) (Domain.timestamp d0)
                                  (Domain.timestamp d_last)]
    ∧ session_calls w' = session_calls w ++ [AddAll (d0 :: rest); Commit].
Proof.
  intros Hlast Hnone. unfold persist. rewrite Hlast. simpl.
  assert (Hint : time_interval d0 d_last
                 = (Domain.timestamp d0, Domain.timestamp d_last)).
  { unfold time_interval.
    destruct Hnone as [-> | ->]; [done|]. by destruct (Domain.timestamp d0). }
  rewrite Hint. unfold session_add_all_commit. run.
  eexists. split; [reflexivity|]. simpl. split; [done|]. by rewrite <- app_assoc.
Qed.

Lemma persist_without_timestamp_witness :
  let d0 := Demo.row "stock_sz_000001_3" 3 in
  let d1 := Domain.mk "stock_sz_000001_x" "000001" None "stock_sz_000001" None ∅ in
  let w := Demo.world [] in
  ∃ w',
    persist Demo.stock (d0 :: [d1]) w = (Ok tt, w')
    ∧ logger w' = logger w ++ [InfoPersist (Entity.id Demo.stock) (Domain.timestamp d0)
                                  (Domain.timestamp d1)]
    ∧ session_calls w' = session_calls w ++ [AddAll (d0 :: [d1]); Commit].
Proof.
  intros d0 d1 w.
  apply (persist_without_timestamp Demo.stock d0 d1 [d1] w).
  - reflexivity.
  - by right.
Defined.

(** X22. In the mode ["add"] a batch of well-formed payloads never ends the
    entity by itself: [process_duplicate] goes through the whole batch
    and answers [entity_finished = False]. *)
Theorem add_mode_goes_through `{Externals} (self : Recorder.t) (entity : Entity.t)
    (batch : list Original) (w : World) :
  Recorder.fix_duplicate_way self = "add" →
  Forall well_formed batch →
  ∃ ad w',
    process_duplicate self batch entity w = (Ok (false, ad), w')
    ∧ (ad = true ↔ ∀ o, o ∈ batch → counted_new (session w) entity o = false).
Proof.
  intros Hadd Hwf. destruct (decide (batch = [])) as [->|Hne].
  - exists true, w. split; [done|]. split; [|done].
    intros _ o Ho. by apply elem_of_nil in Ho.
  - rewrite process_duplicate_eq by done.
    pose proof (loop_flag self entity batch true [] w Hwf) as Hflag.
    destruct (loop_add_completed self entity batch true [] w Hadd Hwf)
      as (ad & items & w1 & Hloop & _ & _).
    rewrite Hloop in Hflag |- *. simpl in Hflag. subst ad. simpl.
    exists (none_new entity (session w) batch).
    destruct items; eexists; (split; [reflexivity|]); apply none_new_true.
Qed.

Lemma add_mode_goes_through_witness :
  let batch := [IsRaw (Demo.payload "3" "1.0"); IsRaw (Demo.payload "3" "2.0")] in
  let w := Demo.world [] in
  ∃ ad w',
    process_duplicate Demo.catch_up batch Demo.stock w = (Ok (false, ad), w')
    ∧ (ad = true ↔ ∀ o, o ∈ batch → counted_new (session w) Demo.stock o = false).
Proof.
  intros batch w.
  apply (add_mode_goes_through Demo.catch_up Demo.stock batch w).
  - reflexivity.
  - repeat constructor; vm_compute; eauto.
Defined.
